(** * Shelly Pro 3EM net metering script: a shallow embedding

    The script [shelly-net-metering-script.js] integrates the total active
    power of a three-phase meter over elapsed uptime, splits the result by
    sign into an import and an export window, and rescales the window
    against the device's own slow energy counters before folding it into
    two persisted accumulators.

    JavaScript numbers are IEEE 754 binary64 values; they are modelled by
    Rocq's primitive [float], whose operations are the processor's and are
    specified by [FloatAxioms] over [SpecFloat].  Module-level [let]
    variables become the fields of one [state] record that every function
    takes and returns; every value read from the device (uptime, component
    status objects, virtual-number handles) is an explicit argument. *)

From Stdlib Require Import ZArith QArith Lia Bool List String.
From Stdlib Require Import Floats.
Import ListNotations.

Local Open Scope float_scope.

(** Decimal literals are read as the nearest binary64 value, as in
    JavaScript. *)
#[local] Set Warnings "-inexact-float".

(** ** JavaScript values at the device boundary *)

(** A field of a status object returned by the firmware may hold anything;
    only the distinction "finite number or not" matters to the script. *)
Inductive js_value : Type :=
| VUndefined
| VNull
| VBool (b : bool)
| VNumber (x : float)
| VString (s : string).

(** [typeof x === "number" && isFinite(x)] *)
Definition isNumber (x : js_value) : bool :=
  match x with
  | VNumber n => is_finite n
  | _ => false
  end.

(** A module variable initialised to [null] and later assigned numbers. *)
Definition nullable := option float.

Definition js (v : nullable) : js_value :=
  match v with
  | Some x => VNumber x
  | None => VNull
  end.

(** [ToNumber] on such a variable: [null] converts to [+0]. *)
Definition toNumber (v : nullable) : float :=
  match v with
  | Some x => x
  | None => 0
  end.

(** [t !== v] for a number [t]: [null] is never strictly equal to a number,
    and two numbers are compared as IEEE values. *)
Definition strict_neq (t : float) (v : nullable) : bool :=
  match v with
  | Some x => negb (t =? x)
  | None => true
  end.

(** Status objects of the "em" and "emdata" components. *)
Record em_status := { total_act_power : js_value }.
Record emdata_status := { total_act : js_value; total_act_ret : js_value }.

(** Status object and handle of a virtual number component. *)
Record number_status := { value : js_value }.
Record handle := { handle_key : string; getStatus : option number_status }.

(** ** Configuration *)

Definition INTEGRATION_TICK_MS : float := 500.
Definition TOTALS_TICK_MS : float := 5000.
Definition NET_METERED_ENERGY_KEY : string := "number:200".
Definition NET_METERED_ENERGY_RET_KEY : string := "number:201".

Definition ENERGY_EPSILON_WH : float := 0.001.

(** ** Runtime state *)

Record state := mkState {
  net_metered_energy_handle : option handle;
  net_metered_energy_ret_handle : option handle;
  net_metered_energy_wh : float;
  net_metered_energy_ret_wh : float;
  delta_energy_integrate_wh : float;
  delta_energy_ret_integrate_wh : float;
  baseline_total_energy_wh : nullable;
  baseline_total_energy_ret_wh : nullable;
  last_seen_total_energy_wh : nullable;
  last_seen_total_energy_ret_wh : nullable;
  totals_changed_since_last_correction : bool;
  totals_last_change_uptime_ms : float;
  last_correction_uptime_ms : float;
  last_integration_uptime_ms : nullable;
  current_total_energy_wh : nullable;
  current_total_energy_ret_wh : nullable;
  (** calls of [setValue] on the virtual numbers, most recent first *)
  setValue_calls : list (string * float)
}.

Definition initial_state : state :=
  {| net_metered_energy_handle := None;
     net_metered_energy_ret_handle := None;
     net_metered_energy_wh := 0;
     net_metered_energy_ret_wh := 0;
     delta_energy_integrate_wh := 0;
     delta_energy_ret_integrate_wh := 0;
     baseline_total_energy_wh := None;
     baseline_total_energy_ret_wh := None;
     last_seen_total_energy_wh := None;
     last_seen_total_energy_ret_wh := None;
     totals_changed_since_last_correction := false;
     totals_last_change_uptime_ms := 0;
     last_correction_uptime_ms := 0;
     last_integration_uptime_ms := None;
     current_total_energy_wh := None;
     current_total_energy_ret_wh := None;
     setValue_calls := [] |}.

(** Assignment to one module variable. *)

Definition set_net_metered_energy_handle (x : option handle) (s : state) : state :=
  mkState x (net_metered_energy_ret_handle s) (net_metered_energy_wh s)
    (net_metered_energy_ret_wh s) (delta_energy_integrate_wh s)
    (delta_energy_ret_integrate_wh s) (baseline_total_energy_wh s)
    (baseline_total_energy_ret_wh s) (last_seen_total_energy_wh s)
    (last_seen_total_energy_ret_wh s)
    (totals_changed_since_last_correction s)
    (totals_last_change_uptime_ms s) (last_correction_uptime_ms s)
    (last_integration_uptime_ms s) (current_total_energy_wh s)
    (current_total_energy_ret_wh s) (setValue_calls s).

Definition set_net_metered_energy_ret_handle (x : option handle) (s : state) : state :=
  mkState (net_metered_energy_handle s) x (net_metered_energy_wh s)
    (net_metered_energy_ret_wh s) (delta_energy_integrate_wh s)
    (delta_energy_ret_integrate_wh s) (baseline_total_energy_wh s)
    (baseline_total_energy_ret_wh s) (last_seen_total_energy_wh s)
    (last_seen_total_energy_ret_wh s)
    (totals_changed_since_last_correction s)
    (totals_last_change_uptime_ms s) (last_correction_uptime_ms s)
    (last_integration_uptime_ms s) (current_total_energy_wh s)
    (current_total_energy_ret_wh s) (setValue_calls s).

Definition set_net_metered_energy_wh (x : float) (s : state) : state :=
  mkState (net_metered_energy_handle s) (net_metered_energy_ret_handle s) x
    (net_metered_energy_ret_wh s) (delta_energy_integrate_wh s)
    (delta_energy_ret_integrate_wh s) (baseline_total_energy_wh s)
    (baseline_total_energy_ret_wh s) (last_seen_total_energy_wh s)
    (last_seen_total_energy_ret_wh s)
    (totals_changed_since_last_correction s)
    (totals_last_change_uptime_ms s) (last_correction_uptime_ms s)
    (last_integration_uptime_ms s) (current_total_energy_wh s)
    (current_total_energy_ret_wh s) (setValue_calls s).

Definition set_net_metered_energy_ret_wh (x : float) (s : state) : state :=
  mkState (net_metered_energy_handle s) (net_metered_energy_ret_handle s)
    (net_metered_energy_wh s) x (delta_energy_integrate_wh s)
    (delta_energy_ret_integrate_wh s) (baseline_total_energy_wh s)
    (baseline_total_energy_ret_wh s) (last_seen_total_energy_wh s)
    (last_seen_total_energy_ret_wh s)
    (totals_changed_since_last_correction s)
    (totals_last_change_uptime_ms s) (last_correction_uptime_ms s)
    (last_integration_uptime_ms s) (current_total_energy_wh s)
    (current_total_energy_ret_wh s) (setValue_calls s).

Definition set_delta_energy_integrate_wh (x : float) (s : state) : state :=
  mkState (net_metered_energy_handle s) (net_metered_energy_ret_handle s)
    (net_metered_energy_wh s) (net_metered_energy_ret_wh s) x
    (delta_energy_ret_integrate_wh s) (baseline_total_energy_wh s)
    (baseline_total_energy_ret_wh s) (last_seen_total_energy_wh s)
    (last_seen_total_energy_ret_wh s)
    (totals_changed_since_last_correction s)
    (totals_last_change_uptime_ms s) (last_correction_uptime_ms s)
    (last_integration_uptime_ms s) (current_total_energy_wh s)
    (current_total_energy_ret_wh s) (setValue_calls s).

Definition set_delta_energy_ret_integrate_wh (x : float) (s : state) : state :=
  mkState (net_metered_energy_handle s) (net_metered_energy_ret_handle s)
    (net_metered_energy_wh s) (net_metered_energy_ret_wh s)
    (delta_energy_integrate_wh s) x (baseline_total_energy_wh s)
    (baseline_total_energy_ret_wh s) (last_seen_total_energy_wh s)
    (last_seen_total_energy_ret_wh s)
    (totals_changed_since_last_correction s)
    (totals_last_change_uptime_ms s) (last_correction_uptime_ms s)
    (last_integration_uptime_ms s) (current_total_energy_wh s)
    (current_total_energy_ret_wh s) (setValue_calls s).

Definition set_baseline_total_energy_wh (x : nullable) (s : state) : state :=
  mkState (net_metered_energy_handle s) (net_metered_energy_ret_handle s)
    (net_metered_energy_wh s) (net_metered_energy_ret_wh s)
    (delta_energy_integrate_wh s) (delta_energy_ret_integrate_wh s) x
    (baseline_total_energy_ret_wh s) (last_seen_total_energy_wh s)
    (last_seen_total_energy_ret_wh s)
    (totals_changed_since_last_correction s)
    (totals_last_change_uptime_ms s) (last_correction_uptime_ms s)
    (last_integration_uptime_ms s) (current_total_energy_wh s)
    (current_total_energy_ret_wh s) (setValue_calls s).

Definition set_baseline_total_energy_ret_wh (x : nullable) (s : state) : state :=
  mkState (net_metered_energy_handle s) (net_metered_energy_ret_handle s)
    (net_metered_energy_wh s) (net_metered_energy_ret_wh s)
    (delta_energy_integrate_wh s) (delta_energy_ret_integrate_wh s)
    (baseline_total_energy_wh s) x (last_seen_total_energy_wh s)
    (last_seen_total_energy_ret_wh s)
    (totals_changed_since_last_correction s)
    (totals_last_change_uptime_ms s) (last_correction_uptime_ms s)
    (last_integration_uptime_ms s) (current_total_energy_wh s)
    (current_total_energy_ret_wh s) (setValue_calls s).

Definition set_last_seen_total_energy_wh (x : nullable) (s : state) : state :=
  mkState (net_metered_energy_handle s) (net_metered_energy_ret_handle s)
    (net_metered_energy_wh s) (net_metered_energy_ret_wh s)
    (delta_energy_integrate_wh s) (delta_energy_ret_integrate_wh s)
    (baseline_total_energy_wh s) (baseline_total_energy_ret_wh s) x
    (last_seen_total_energy_ret_wh s)
    (totals_changed_since_last_correction s)
    (totals_last_change_uptime_ms s) (last_correction_uptime_ms s)
    (last_integration_uptime_ms s) (current_total_energy_wh s)
    (current_total_energy_ret_wh s) (setValue_calls s).

Definition set_last_seen_total_energy_ret_wh (x : nullable) (s : state) : state :=
  mkState (net_metered_energy_handle s) (net_metered_energy_ret_handle s)
    (net_metered_energy_wh s) (net_metered_energy_ret_wh s)
    (delta_energy_integrate_wh s) (delta_energy_ret_integrate_wh s)
    (baseline_total_energy_wh s) (baseline_total_energy_ret_wh s)
    (last_seen_total_energy_wh s) x (totals_changed_since_last_correction s)
    (totals_last_change_uptime_ms s) (last_correction_uptime_ms s)
    (last_integration_uptime_ms s) (current_total_energy_wh s)
    (current_total_energy_ret_wh s) (setValue_calls s).

Definition set_totals_changed_since_last_correction (x : bool) (s : state) : state :=
  mkState (net_metered_energy_handle s) (net_metered_energy_ret_handle s)
    (net_metered_energy_wh s) (net_metered_energy_ret_wh s)
    (delta_energy_integrate_wh s) (delta_energy_ret_integrate_wh s)
    (baseline_total_energy_wh s) (baseline_total_energy_ret_wh s)
    (last_seen_total_energy_wh s) (last_seen_total_energy_ret_wh s) x
    (totals_last_change_uptime_ms s) (last_correction_uptime_ms s)
    (last_integration_uptime_ms s) (current_total_energy_wh s)
    (current_total_energy_ret_wh s) (setValue_calls s).

Definition set_totals_last_change_uptime_ms (x : float) (s : state) : state :=
  mkState (net_metered_energy_handle s) (net_metered_energy_ret_handle s)
    (net_metered_energy_wh s) (net_metered_energy_ret_wh s)
    (delta_energy_integrate_wh s) (delta_energy_ret_integrate_wh s)
    (baseline_total_energy_wh s) (baseline_total_energy_ret_wh s)
    (last_seen_total_energy_wh s) (last_seen_total_energy_ret_wh s)
    (totals_changed_since_last_correction s) x (last_correction_uptime_ms s)
    (last_integration_uptime_ms s) (current_total_energy_wh s)
    (current_total_energy_ret_wh s) (setValue_calls s).

Definition set_last_correction_uptime_ms (x : float) (s : state) : state :=
  mkState (net_metered_energy_handle s) (net_metered_energy_ret_handle s)
    (net_metered_energy_wh s) (net_metered_energy_ret_wh s)
    (delta_energy_integrate_wh s) (delta_energy_ret_integrate_wh s)
    (baseline_total_energy_wh s) (baseline_total_energy_ret_wh s)
    (last_seen_total_energy_wh s) (last_seen_total_energy_ret_wh s)
    (totals_changed_since_last_correction s)
    (totals_last_change_uptime_ms s) x (last_integration_uptime_ms s)
    (current_total_energy_wh s) (current_total_energy_ret_wh s)
    (setValue_calls s).

Definition set_last_integration_uptime_ms (x : nullable) (s : state) : state :=
  mkState (net_metered_energy_handle s) (net_metered_energy_ret_handle s)
    (net_metered_energy_wh s) (net_metered_energy_ret_wh s)
    (delta_energy_integrate_wh s) (delta_energy_ret_integrate_wh s)
    (baseline_total_energy_wh s) (baseline_total_energy_ret_wh s)
    (last_seen_total_energy_wh s) (last_seen_total_energy_ret_wh s)
    (totals_changed_since_last_correction s)
    (totals_last_change_uptime_ms s) (last_correction_uptime_ms s) x
    (current_total_energy_wh s) (current_total_energy_ret_wh s)
    (setValue_calls s).

Definition set_current_total_energy_wh (x : nullable) (s : state) : state :=
  mkState (net_metered_energy_handle s) (net_metered_energy_ret_handle s)
    (net_metered_energy_wh s) (net_metered_energy_ret_wh s)
    (delta_energy_integrate_wh s) (delta_energy_ret_integrate_wh s)
    (baseline_total_energy_wh s) (baseline_total_energy_ret_wh s)
    (last_seen_total_energy_wh s) (last_seen_total_energy_ret_wh s)
    (totals_changed_since_last_correction s)
    (totals_last_change_uptime_ms s) (last_correction_uptime_ms s)
    (last_integration_uptime_ms s) x (current_total_energy_ret_wh s)
    (setValue_calls s).

Definition set_current_total_energy_ret_wh (x : nullable) (s : state) : state :=
  mkState (net_metered_energy_handle s) (net_metered_energy_ret_handle s)
    (net_metered_energy_wh s) (net_metered_energy_ret_wh s)
    (delta_energy_integrate_wh s) (delta_energy_ret_integrate_wh s)
    (baseline_total_energy_wh s) (baseline_total_energy_ret_wh s)
    (last_seen_total_energy_wh s) (last_seen_total_energy_ret_wh s)
    (totals_changed_since_last_correction s)
    (totals_last_change_uptime_ms s) (last_correction_uptime_ms s)
    (last_integration_uptime_ms s) (current_total_energy_wh s) x
    (setValue_calls s).

Definition set_setValue_calls (x : list (string * float)) (s : state) : state :=
  mkState (net_metered_energy_handle s) (net_metered_energy_ret_handle s)
    (net_metered_energy_wh s) (net_metered_energy_ret_wh s)
    (delta_energy_integrate_wh s) (delta_energy_ret_integrate_wh s)
    (baseline_total_energy_wh s) (baseline_total_energy_ret_wh s)
    (last_seen_total_energy_wh s) (last_seen_total_energy_ret_wh s)
    (totals_changed_since_last_correction s)
    (totals_last_change_uptime_ms s) (last_correction_uptime_ms s)
    (last_integration_uptime_ms s) (current_total_energy_wh s)
    (current_total_energy_ret_wh s) x.

(** Assignments in program order: [s |> set_x a |> set_y b] is the state
    after [x = a; y = b]. *)
Notation "s |> f" := (f s) (at level 50, left associativity, only parsing).

(** ** Helper functions *)

Definition clampMinMax (v minValue maxValue : float) : float :=
  if v <? minValue then minValue
  else if maxValue <? v then maxValue
  else v.

(** [if (h) h.setValue(x)] *)
Definition setValue (h : option handle) (x : float)
    (calls : list (string * float)) : list (string * float) :=
  match h with
  | Some hd => (handle_key hd, x) :: calls
  | None => calls
  end.

(** The number held by a value that passed [isNumber]. *)
Definition number_of (v : js_value) : nullable :=
  match v with
  | VNumber x => Some x
  | _ => None
  end.

(** ** Shelly readings *)

(** [em] is the result of [Shelly.getComponentStatus("em", EM_ID)]. *)
Definition readTotalPowerW (em : option em_status) : js_value :=
  match em with
  | None => VNull
  | Some e =>
      if negb (isNumber (total_act_power e)) then VNull
      else total_act_power e
  end.

(** [st] is the result of [Shelly.getComponentStatus("emdata", EMDATA_ID)];
    the function returns its boolean result and the new state. *)
Definition readTotalsWh (st : option emdata_status) (s : state)
    : bool * state :=
  match st with
  | None => (false, s)
  | Some d =>
      if negb (isNumber (total_act d)) || negb (isNumber (total_act_ret d))
      then (false, s)
      else
        (true,
         s |> set_current_total_energy_wh (number_of (total_act d))
           |> set_current_total_energy_ret_wh (number_of (total_act_ret d)))
  end.

(** ** Integration and correction logic *)

(** [now] is the value of [getUptimeMs()], [em] the status object that
    [readTotalPowerW] receives. *)
Definition integratePower (now : float) (em : option em_status) (s : state)
    : state :=
  match last_integration_uptime_ms s with
  | None => s |> set_last_integration_uptime_ms (Some now)
  | Some last =>
      let dt_ms := now - last in
      if dt_ms <=? 0 then s
      else
        let s1 := s |> set_last_integration_uptime_ms (Some now) in
        let p := readTotalPowerW em in
        if negb (isNumber p) then s1
        else
          match p with
          | VNumber pw =>
              let wh := pw * (dt_ms / 3600000.0) in
              if 0 <=? wh then
                s1 |> set_delta_energy_integrate_wh
                        (delta_energy_integrate_wh s1 + wh)
              else
                s1 |> set_delta_energy_ret_integrate_wh
                        (delta_energy_ret_integrate_wh s1 + - wh)
          | _ => s1
          end
  end.

(** [up1] and [up2] are the two readings of [getUptimeMs()] made inside
    the branch. *)
Definition startBaselineIfNeeded (up1 up2 : float) (t r : float) (s : state)
    : state :=
  if negb (isNumber (js (baseline_total_energy_wh s)))
     || negb (isNumber (js (baseline_total_energy_ret_wh s)))
  then
    s |> set_baseline_total_energy_wh (Some t)
      |> set_baseline_total_energy_ret_wh (Some r)
      |> set_last_seen_total_energy_wh (Some t)
      |> set_last_seen_total_energy_ret_wh (Some r)
      |> set_totals_changed_since_last_correction false
      |> set_totals_last_change_uptime_ms up1
      |> set_last_correction_uptime_ms up2
      |> set_delta_energy_integrate_wh 0.0
      |> set_delta_energy_ret_integrate_wh 0.0
  else s.

(** [up] is the reading of [getUptimeMs()] made when a change is seen. *)
Definition updateTotalsChangeDetection (up : float) (t r : float) (s : state)
    : state :=
  if negb (isNumber (js (last_seen_total_energy_wh s)))
     || negb (isNumber (js (last_seen_total_energy_ret_wh s)))
  then
    s |> set_last_seen_total_energy_wh (Some t)
      |> set_last_seen_total_energy_ret_wh (Some r)
  else if strict_neq t (last_seen_total_energy_wh s)
          || strict_neq r (last_seen_total_energy_ret_wh s)
  then
    s |> set_totals_changed_since_last_correction true
      |> set_totals_last_change_uptime_ms up
      |> set_last_seen_total_energy_wh (Some t)
      |> set_last_seen_total_energy_ret_wh (Some r)
  else s.

(** The scale factor [k] of a correction (the source computes it inline
    in [applyCorrectionIfReady] and logs it as [correction_factor]), from
    the net change of the reference counters and the net integrated energy
    of the window. *)
Definition correction_factor (sum_total sum_integrated : float) : float :=
  let k :=
    if is_finite sum_integrated && (ENERGY_EPSILON_WH <? abs sum_integrated)
    then
      let k := sum_total / sum_integrated in
      let k := if negb (is_finite k) then 1.0 else k in
      if k <=? 0.001 then 1.0 else k
    else 1.0 in
  clampMinMax k 0.1 10.0.

(** [now] is the reading of [getUptimeMs()] made once the change flag is
    seen set. *)
Definition applyCorrectionIfReady (now : float) (t r : float) (s : state)
    : state :=
  if negb (totals_changed_since_last_correction s) then s
  else if (now - totals_last_change_uptime_ms s) <? 5000 then s
  else
    let dt_total := t - toNumber (baseline_total_energy_wh s) in
    let dt_ret_total := r - toNumber (baseline_total_energy_ret_wh s) in
    let sum_total := dt_total - dt_ret_total in
    let sum_integrated :=
      delta_energy_integrate_wh s - delta_energy_ret_integrate_wh s in
    let k := correction_factor sum_total sum_integrated in
    let dt_int := delta_energy_integrate_wh s * k in
    let dt_ret_int := delta_energy_ret_integrate_wh s * k in
    let net := net_metered_energy_wh s + dt_int in
    let net_ret := net_metered_energy_ret_wh s + dt_ret_int in
    s |> set_net_metered_energy_wh net
      |> set_net_metered_energy_ret_wh net_ret
      |> set_setValue_calls
           (setValue_calls s
              |> setValue (net_metered_energy_handle s) net
              |> setValue (net_metered_energy_ret_handle s) net_ret)
      |> set_baseline_total_energy_wh (Some t)
      |> set_baseline_total_energy_ret_wh (Some r)
      |> set_delta_energy_integrate_wh 0.0
      |> set_delta_energy_ret_integrate_wh 0.0
      |> set_totals_changed_since_last_correction false
      |> set_last_correction_uptime_ms now
      |> set_last_integration_uptime_ms (Some now).

(** ** Timer callbacks *)

Definition integrationTick (now : float) (em : option em_status) (s : state)
    : state :=
  integratePower now em s.

(** The uptime readings a totals tick can make, in program order: two in
    [startBaselineIfNeeded], one in [updateTotalsChangeDetection], one in
    [applyCorrectionIfReady]. *)
Record uptimes := {
  up_baseline_change : float;
  up_baseline_correction : float;
  up_change : float;
  up_correction : float
}.

Definition totalsTick (st : option emdata_status) (u : uptimes) (s : state)
    : state :=
  let (ok, s1) := readTotalsWh st s in
  if negb ok then s1
  else
    match current_total_energy_wh s1, current_total_energy_ret_wh s1 with
    | Some t, Some r =>
        s1 |> startBaselineIfNeeded
                (up_baseline_change u) (up_baseline_correction u) t r
           |> updateTotalsChangeDetection (up_change u) t r
           |> applyCorrectionIfReady (up_correction u) t r
    | _, _ => s1
    end.

(** ** Startup *)

(** [getHandle] is [Virtual.getHandle]. *)
Definition loadPersisted (getHandle : string -> option handle) (s : state)
    : state :=
  let h1 := getHandle NET_METERED_ENERGY_KEY in
  let h2 := getHandle NET_METERED_ENERGY_RET_KEY in
  let s1 :=
    match h1 with
    | Some h => getStatus h
    | None => None
    end in
  let s2 :=
    match h2 with
    | Some h => getStatus h
    | None => None
    end in
  let load (st : option number_status) : float :=
    match st with
    | Some x =>
        if isNumber (value x) then toNumber (number_of (value x)) else 0.0
    | None => 0.0
    end in
  s |> set_net_metered_energy_handle h1
    |> set_net_metered_energy_ret_handle h2
    |> set_net_metered_energy_wh (load s1)
    |> set_net_metered_energy_ret_wh (load s2).

(** The body of the innermost callback of [start], up to the point where
    the two timers are armed; [st] answers its [readTotalsWh], [up1] and
    [up2] the uptime readings of its [startBaselineIfNeeded]. *)
Definition start (getHandle : string -> option handle)
    (st : option emdata_status) (up1 up2 : float) : state :=
  let s := loadPersisted getHandle initial_state in
  let (ok, s1) := readTotalsWh st s in
  if ok then
    match current_total_energy_wh s1, current_total_energy_ret_wh s1 with
    | Some t, Some r => startBaselineIfNeeded up1 up2 t r s1
    | _, _ => s1
    end
  else s1.

(** ** Runs of the two timers *)

(** One firing of a timer, with what the device answers during it. *)
Inductive tick : Type :=
| IntegrationTick (now : float) (em : option em_status)
| TotalsTick (st : option emdata_status) (u : uptimes).

Definition step (s : state) (e : tick) : state :=
  match e with
  | IntegrationTick now em => integrationTick now em s
  | TotalsTick st u => totalsTick st u s
  end.

Definition run (es : list tick) (s : state) : state := fold_left step es s.

(** * Vocabulary of the properties *)

(** ** Classes of binary64 values *)

(** Zero or a finite non-zero value. *)
Definition SFis_finite (x : spec_float) : bool :=
  match x with
  | S754_zero _ | S754_finite _ _ _ => true
  | _ => false
  end.

(** Not NaN, with sign bit [s] (zeros and infinities included). *)
Definition SFhas_sign (s : bool) (x : spec_float) : bool :=
  match x with
  | S754_zero s' | S754_infinity s' | S754_finite s' _ _ => Bool.eqb s s'
  | S754_nan => false
  end.

(** ** Inputs *)

(** An uptime reading: a finite, non-negative number of milliseconds. *)
Definition clock_ok (u : float) : bool := is_finite u && (0 <=? u).

Definition tick_clocks_ok (e : tick) : bool :=
  match e with
  | IntegrationTick now _ => clock_ok now
  | TotalsTick _ u =>
      clock_ok (up_baseline_change u) && clock_ok (up_baseline_correction u)
      && clock_ok (up_change u) && clock_ok (up_correction u)
  end.

(** The reference read fails: the status object is absent or one of the
    two counters is not a finite number. *)
Definition read_fails (st : option emdata_status) : bool :=
  match st with
  | None => true
  | Some d =>
      negb (isNumber (total_act d)) || negb (isNumber (total_act_ret d))
  end.

(** The power sample is absent. *)
Definition power_absent (em : option em_status) : bool :=
  negb (isNumber (readTotalPowerW em)).

(** A persisted accumulator cannot be loaded: no handle, no status, or a
    stored value that is not a finite number. *)
Definition cannot_load (h : option handle) : bool :=
  match h with
  | None => true
  | Some hd =>
      match getStatus hd with
      | None => true
      | Some st => negb (isNumber (value st))
      end
  end.

(** ** State invariant *)

(** The accumulators are numbers above [-infinity], the window components
    are non-negative, and the integration anchor is an uptime reading. *)
Record wf_state (s : state) : Prop := {
  wf_net : (neg_infinity <? net_metered_energy_wh s) = true;
  wf_net_ret : (neg_infinity <? net_metered_energy_ret_wh s) = true;
  wf_delta : (0 <=? delta_energy_integrate_wh s) = true;
  wf_delta_ret : (0 <=? delta_energy_ret_integrate_wh s) = true;
  wf_anchor :
    match last_integration_uptime_ms s with
    | Some l => clock_ok l = true
    | None => True
    end
}.

(** The integration window as a pair. *)
Definition window (s : state) : float * float :=
  (delta_energy_integrate_wh s, delta_energy_ret_integrate_wh s).

(** Everything but the integrator's own variables (the window and the
    anchor). *)
Definition outside_integrator (s s' : state) : Prop :=
  net_metered_energy_handle s' = net_metered_energy_handle s /\
  net_metered_energy_ret_handle s' = net_metered_energy_ret_handle s /\
  net_metered_energy_wh s' = net_metered_energy_wh s /\
  net_metered_energy_ret_wh s' = net_metered_energy_ret_wh s /\
  baseline_total_energy_wh s' = baseline_total_energy_wh s /\
  baseline_total_energy_ret_wh s' = baseline_total_energy_ret_wh s /\
  last_seen_total_energy_wh s' = last_seen_total_energy_wh s /\
  last_seen_total_energy_ret_wh s' = last_seen_total_energy_ret_wh s /\
  totals_changed_since_last_correction s' =
    totals_changed_since_last_correction s /\
  totals_last_change_uptime_ms s' = totals_last_change_uptime_ms s /\
  last_correction_uptime_ms s' = last_correction_uptime_ms s /\
  current_total_energy_wh s' = current_total_energy_wh s /\
  current_total_energy_ret_wh s' = current_total_energy_ret_wh s /\
  setValue_calls s' = setValue_calls s.

(** ** Example data *)

(** A device without virtual numbers. *)
Definition no_handles : string -> option handle := fun _ => None.

(** Status objects with the given readings. *)
Definition power (w : float) : option em_status :=
  Some {| total_act_power := VNumber w |}.

Definition totals (t r : float) : option emdata_status :=
  Some {| total_act := VNumber t; total_act_ret := VNumber r |}.

(** A totals tick during which the uptime reads [u] throughout. *)
Definition at_uptime (u : float) : uptimes :=
  {| up_baseline_change := u; up_baseline_correction := u;
     up_change := u; up_correction := u |}.

(** One hour at +1000 W seen by two integration ticks, then a change of
    the reference counters by +950 Wh import that has settled 5 s later. *)
Definition hour_in_one_step : list tick :=
  [ IntegrationTick 0 (power 1000);
    IntegrationTick 3600000 (power 1000) ].

Definition settled_reference_change : list tick :=
  [ TotalsTick (totals 1050 50) (at_uptime 3600000);
    TotalsTick (totals 1050 50) (at_uptime 3605000) ].

(** A tick whose reference read, if it makes one, fails. *)
Definition tick_read_fails (e : tick) : bool :=
  match e with
  | IntegrationTick _ _ => true
  | TotalsTick st _ => read_fails st
  end.

(** A state in which an integration tick has already set the anchor to
    [u]. *)
Definition anchored_at (u : float) : state :=
  set_last_integration_uptime_ms (Some u) initial_state.

(** A state in which a counter change was recorded at uptime [u]. *)
Definition changed_at (u : float) : state :=
  set_totals_last_change_uptime_ms u
    (set_totals_changed_since_last_correction true initial_state).

(** ** Exact values *)















(** * Provisioning of the virtual components *)

Definition NET_METERING_GROUP_ID : float := 200.
Definition NET_METERING_GROUP_NAME : string := "Energy Net Metering".
Definition NET_METERED_ENERGY_ID : float := 200.
Definition NET_METERED_ENERGY_RET_ID : float := 201.
Definition NET_METERED_ENERGY_NAME : string := "Net Metered Energy".
Definition NET_METERED_ENERGY_RET_NAME : string := "Net Metered Energy Return".
Definition NET_METERING_GROUP_KEY : string := "group:200".

(** An entry of the list that [Shelly.GetComponents] returns, and the
    result object itself, whose [components] field may be missing. *)
Record component_config := { name : js_value }.
Record component := { key : string; config : option component_config }.
Record get_components_result := { components : option (list component) }.

(** The error object handed to the callback of a failed call. *)
Record rpc_error := { code : float; message : string }.

(** The calls the script makes on the device, with their parameters. *)
Record ui_meta := { ui_view : string; ui_unit : string; ui_step : float }.
Record add_config := {
  add_name : string;
  add_persisted : option bool;
  add_meta_ui : option ui_meta
}.

Inductive timer_callback : Type :=
| Callback_integrationTick
| Callback_totalsTick.

Inductive call : Type :=
| Shelly_GetComponents (dynamic_only : bool) (include : list string)
| Virtual_Add (type : string) (id : float) (cfg : add_config)
| Virtual_Delete (k : string)
| Group_SetConfig (id : float) (group_name : string)
| Group_Set (id : float) (members : list string)
| Timer_set (period : float) (repeat : bool) (callback : timer_callback).

(** [v !== s] for a string [s]. *)
Definition strict_neq_string (v : js_value) (s : string) : bool :=
  match v with
  | VString x => negb (String.eqb x s)
  | _ => true
  end.

Fixpoint getComponentByKeyFromList (l : list component) (k : string)
    : option component :=
  match l with
  | [] => None
  | c :: tl =>
      if String.eqb (key c) k then Some c
      else getComponentByKeyFromList tl k
  end.

(** [res && res.components ? res.components : []] *)
Definition components_of (res : option get_components_result)
    : list component :=
  match res with
  | Some r =>
      match components r with
      | Some l => l
      | None => []
      end
  | None => []
  end.

(** [c.config ? c.config.name : null] *)
Definition config_name (c : component) : js_value :=
  match config c with
  | Some cfg => name cfg
  | None => VNull
  end.

(** The functions below are written in continuation-passing style, as in
    the source: the result is the sequence of device calls made, in order,
    the callback [cb] contributing those that follow.  [res] is what the
    device answers to [Shelly.GetComponents] and [add_err] the error, if
    any, it answers to [Virtual.Add].  With [LOG = false] the calls of
    [log] do nothing. *)
Definition ensureVirtualNumberComponent (id : float) (k expectedName : string)
    (res : option get_components_result) (add_err : option rpc_error)
    (cb : bool -> list call) : list call :=
  Shelly_GetComponents true ["config"%string] ::
  let existing := getComponentByKeyFromList (components_of res) k in
  let createNew :=
    Virtual_Add "number" id
      {| add_name := expectedName;
         add_persisted := Some true;
         add_meta_ui :=
           Some {| ui_view := "label"; ui_unit := "Wh"; ui_step := 1 |} |}
    :: match add_err with
       | Some _ => cb false
       | None => cb true
       end in
  match existing with
  | None => createNew
  | Some c =>
      if strict_neq_string (config_name c) expectedName
      then Virtual_Delete k :: createNew
      else cb true
  end.

Definition ensureVirtualGroupComponent (id : float) (k expectedName : string)
    (members : list string) (res : option get_components_result)
    (cb : bool -> list call) : list call :=
  Shelly_GetComponents true ["config"%string] ::
  let existing := getComponentByKeyFromList (components_of res) k in
  let configure :=
    Group_SetConfig id expectedName :: Group_Set id members :: cb true in
  let createNew :=
    Virtual_Add "group" id
      {| add_name := expectedName;
         add_persisted := None;
         add_meta_ui := None |}
    :: configure in
  match existing with
  | None => createNew
  | Some c =>
      if strict_neq_string (config_name c) expectedName
      then Virtual_Delete k :: createNew
      else configure
  end.

(** The device calls of [start]: the three provisioning steps chained by
    their callbacks, then the two timers.  [res1], [res2], [res3] answer
    the three [Shelly.GetComponents], [err1], [err2] the [Virtual.Add] of
    the two numbers. *)
Definition start_calls (res1 : option get_components_result)
    (err1 : option rpc_error) (res2 : option get_components_result)
    (err2 : option rpc_error) (res3 : option get_components_result)
    : list call :=
  ensureVirtualNumberComponent NET_METERED_ENERGY_ID NET_METERED_ENERGY_KEY
    NET_METERED_ENERGY_NAME res1 err1 (fun _ =>
  ensureVirtualNumberComponent NET_METERED_ENERGY_RET_ID
    NET_METERED_ENERGY_RET_KEY NET_METERED_ENERGY_RET_NAME res2 err2 (fun _ =>
  ensureVirtualGroupComponent NET_METERING_GROUP_ID NET_METERING_GROUP_KEY
    NET_METERING_GROUP_NAME
    [NET_METERED_ENERGY_KEY; NET_METERED_ENERGY_RET_KEY] res3 (fun _ =>
  [ Timer_set INTEGRATION_TICK_MS true Callback_integrationTick;
    Timer_set TOTALS_TICK_MS true Callback_totalsTick ]))).

(** * Vocabulary of the further properties *)

(** The [Virtual.Add] call of [ensureVirtualNumberComponent]. *)
Definition add_number (id : float) (expectedName : string) : call :=
  Virtual_Add "number" id
    {| add_name := expectedName;
       add_persisted := Some true;
       add_meta_ui :=
         Some {| ui_view := "label"; ui_unit := "Wh"; ui_step := 1 |} |}.

(** The [Virtual.Add] call of [ensureVirtualGroupComponent]. *)
Definition add_group (id : float) (expectedName : string) : call :=
  Virtual_Add "group" id
    {| add_name := expectedName; add_persisted := None;
       add_meta_ui := None |}.

Definition get_components : call :=
  Shelly_GetComponents true ["config"%string].

Definition is_timer_set (c : call) : bool :=
  match c with
  | Timer_set _ _ _ => true
  | _ => false
  end.

(** The two timers that [start] arms. *)
Definition timers : list call :=
  [ Timer_set INTEGRATION_TICK_MS true Callback_integrationTick;
    Timer_set TOTALS_TICK_MS true Callback_totalsTick ].

(** Whether [Virtual.Add] succeeded. *)
Definition add_succeeded (err : option rpc_error) : bool :=
  match err with
  | Some _ => false
  | None => true
  end.

(** A device listing one virtual number under [k] with name [nm]. *)
Definition listing (k nm : string) : option get_components_result :=
  Some {| components :=
            Some [ {| key := k;
                      config := Some {| name := VString nm |} |} ] |}.

(** The baseline holds two finite numbers. *)
Definition baseline_ready (s : state) : bool :=
  isNumber (js (baseline_total_energy_wh s))
  && isNumber (js (baseline_total_energy_ret_wh s)).

(** The value most recently written to the virtual number [k]. *)
Fixpoint last_written (k : string) (calls : list (string * float))
    : option float :=
  match calls with
  | [] => None
  | (k', x) :: tl => if String.eqb k' k then Some x else last_written k tl
  end.

(** Whatever was written last under key [k] went through the handle [h]
    and is the value [x]. *)
Definition written_in_sync (k : string) (h : option handle) (x : float)
    (calls : list (string * float)) : Prop :=
  match last_written k calls with
  | Some v => h <> None /\ v = x
  | None => True
  end.

(** [Virtual.getHandle] returns handles of the component asked for. *)
Definition handles_by_key (getHandle : string -> option handle) : Prop :=
  forall k h, getHandle k = Some h -> handle_key h = k.

(** A tick whose reference read, if it makes one, fails or returns the
    status [st0]. *)
Definition tick_rereads (st0 : option emdata_status) (e : tick) : Prop :=
  match e with
  | IntegrationTick _ _ => True
  | TotalsTick st _ => read_fails st = true \/ st = st0
  end.

(** The change detector holds counters numerically equal to [t] and [r]:
    reading [t] and [r] is no change. *)
Definition last_seen_is (t r : float) (s : state) : Prop :=
  exists a b,
    last_seen_total_energy_wh s = Some a /\
    last_seen_total_energy_ret_wh s = Some b /\
    is_finite a = true /\ is_finite b = true /\
    (t =? a) = true /\ (r =? b) = true.

(** The baseline is initialised, the change detector holds the counters
    [t] and [r], and no change is pending. *)
Definition reference_quiet (t r : float) (s : state) : Prop :=
  baseline_ready s = true /\ last_seen_is t r s /\
  totals_changed_since_last_correction s = false.

(** A store that holds both virtual numbers, with the values [x] and
    [y]. *)
Definition both_handles (x y : float) (k : string) : option handle :=
  if String.eqb k NET_METERED_ENERGY_KEY then
    Some {| handle_key := k;
            getStatus := Some {| value := VNumber x |} |}
  else if String.eqb k NET_METERED_ENERGY_RET_KEY then
    Some {| handle_key := k;
            getStatus := Some {| value := VNumber y |} |}
  else None.

(** The state after a successful read of the counters [t] and [r]. *)
Definition with_totals (t r : float) (s : state) : state :=
  set_current_total_energy_ret_wh (Some r)
    (set_current_total_energy_wh (Some t) s).

(** What a run cannot change while the reference is quiet. *)
Definition quiet_frame (s s' : state) : Prop :=
  net_metered_energy_wh s' = net_metered_energy_wh s /\
  net_metered_energy_ret_wh s' = net_metered_energy_ret_wh s /\
  baseline_total_energy_wh s' = baseline_total_energy_wh s /\
  baseline_total_energy_ret_wh s' = baseline_total_energy_ret_wh s /\
  last_correction_uptime_ms s' = last_correction_uptime_ms s /\
  setValue_calls s' = setValue_calls s.

(** The handles are those [getHandle] returns, and each virtual number, if
    written at all, holds its accumulator. *)
Definition persisted_in_sync (getHandle : string -> option handle)
    (s : state) : Prop :=
  net_metered_energy_handle s = getHandle NET_METERED_ENERGY_KEY /\
  net_metered_energy_ret_handle s = getHandle NET_METERED_ENERGY_RET_KEY /\
  written_in_sync NET_METERED_ENERGY_KEY
    (getHandle NET_METERED_ENERGY_KEY)
    (net_metered_energy_wh s) (setValue_calls s) /\
  written_in_sync NET_METERED_ENERGY_RET_KEY
    (getHandle NET_METERED_ENERGY_RET_KEY)
    (net_metered_energy_ret_wh s) (setValue_calls s).

(** * Binary64 arithmetic: facts about the specification of the primitive
    operations that the proofs about the script rely on *)

Module B64.

Local Open Scope Z_scope.

(** ** Number of binary digits *)

Lemma digits2_pos_size (p : positive) : digits2_pos p = Pos.size p.
Proof. induction p; simpl; congruence. Qed.

Lemma Zdigits2_log2 (m : Z) : 0 < m -> Zdigits2 m = Z.log2 m + 1.
Proof.
  destruct m as [|p|p]; try lia. intros _. simpl.
  destruct p as [p|p|]; simpl; rewrite ?digits2_pos_size; lia.
Qed.

Lemma digits2_pos_log2 (p : positive) :
  Z.pos (digits2_pos p) = Z.log2 (Z.pos p) + 1.
Proof. apply (Zdigits2_log2 (Z.pos p)). lia. Qed.

Lemma Zdigits2_nonneg (m : Z) : 0 <= Zdigits2 m.
Proof. destruct m; simpl; lia. Qed.

Lemma Zdigits2_le (a b : Z) : 0 <= a -> a <= b -> Zdigits2 a <= Zdigits2 b.
Proof.
  intros Ha Hab.
  destruct (Z.eq_dec a 0) as [->|Na]; [apply Zdigits2_nonneg|].
  rewrite !Zdigits2_log2 by lia.
  pose proof (Z.log2_le_mono a b Hab). lia.
Qed.

Lemma Zdigits2_mul_pow2 (a k : Z) :
  0 < a -> 0 <= k -> Zdigits2 (a * 2 ^ k) = Zdigits2 a + k.
Proof.
  intros Ha Hk.
  assert (0 < 2 ^ k) by (apply Z.pow_pos_nonneg; lia).
  rewrite !Zdigits2_log2 by nia.
  rewrite Z.log2_mul_pow2 by lia. lia.
Qed.

Lemma Zdigits2_div_pow2 (a k : Z) :
  0 <= a -> 0 <= k -> Zdigits2 (a / 2 ^ k) = Z.max 0 (Zdigits2 a - k).
Proof.
  intros Ha Hk.
  destruct (Z.eq_dec a 0) as [->|Na].
  { rewrite Z.div_0_l by (apply Z.pow_nonzero; lia). simpl. lia. }
  rewrite <- Z.shiftr_div_pow2 by lia.
  destruct (Z.le_gt_cases k (Z.log2 a)) as [Hle|Hgt].
  - assert (0 < Z.shiftr a k).
    { pose proof (Z.shiftr_nonneg a k).
      assert (Z.shiftr a k <> 0); [|lia].
      rewrite Z.shiftr_eq_0_iff. lia. }
    rewrite !Zdigits2_log2 by lia.
    rewrite Z.log2_shiftr by lia. lia.
  - rewrite Z.shiftr_eq_0 by lia.
    rewrite (Zdigits2_log2 a) by lia. simpl. lia.
Qed.

Lemma Zdigits2_lt_pow2 (a k : Z) :
  0 <= a -> 0 <= k -> (a < 2 ^ k <-> Zdigits2 a <= k).
Proof.
  intros Ha Hk.
  destruct (Z.eq_dec a 0) as [->|Na].
  { simpl. split; intros _; [lia|]. apply Z.pow_pos_nonneg; lia. }
  rewrite Zdigits2_log2 by lia.
  rewrite Z.log2_lt_pow2 by lia. lia.
Qed.

Lemma Zdigits2_ge_pow2 (a k : Z) :
  0 < a -> (2 ^ k <= a <-> k < Zdigits2 a).
Proof.
  intros Ha. rewrite Zdigits2_log2 by lia.
  rewrite Z.log2_le_pow2 by lia. lia.
Qed.

(** ** Right shifts with round and sticky bits *)

Lemma shr_1_m (mrs : shr_record) :
  shr_m (shr_1 mrs) = Z.div2 (shr_m mrs) \/ shr_m mrs < 0.
Proof.
  destruct mrs as [m r s]. simpl.
  destruct m as [|p|p]; [left; reflexivity| |right; lia].
  left. destruct p; reflexivity.
Qed.

Lemma shr_1_nonneg (mrs : shr_record) :
  0 <= shr_m mrs -> shr_m (shr_1 mrs) = shr_m mrs / 2.
Proof.
  intros H. destruct (shr_1_m mrs) as [E|E]; [|lia].
  rewrite E. apply Z.div2_div.
Qed.

Lemma iter_pos_shr_1 (p : positive) (mrs : shr_record) :
  0 <= shr_m mrs ->
  shr_m (iter_pos shr_1 p mrs) = shr_m mrs / 2 ^ Z.pos p.
Proof.
  revert mrs. induction p as [p IH|p IH|]; intros mrs H; simpl iter_pos.
  - assert (H1 : 0 <= shr_m (shr_1 mrs)).
    { rewrite shr_1_nonneg by assumption. apply Z.div_pos; lia. }
    assert (H2 : 0 <= shr_m (iter_pos shr_1 p (shr_1 mrs))).
    { rewrite IH by assumption. apply Z.div_pos; [lia|].
      apply Z.pow_pos_nonneg; lia. }
    rewrite IH by assumption. rewrite IH by assumption.
    rewrite shr_1_nonneg by assumption.
    rewrite !Z.div_div by (try apply Z.pow_pos_nonneg; lia).
    f_equal.
    assert (E : Z.pos p~1 = 1 + Z.pos p + Z.pos p) by lia.
    rewrite E, !Z.pow_add_r by lia. rewrite Z.pow_1_r. ring.
  - assert (H2 : 0 <= shr_m (iter_pos shr_1 p mrs)).
    { rewrite IH by assumption. apply Z.div_pos; [lia|].
      apply Z.pow_pos_nonneg; lia. }
    rewrite IH by assumption. rewrite IH by assumption.
    rewrite !Z.div_div by (try apply Z.pow_pos_nonneg; lia).
    f_equal.
    assert (E : Z.pos p~0 = Z.pos p + Z.pos p) by lia.
    rewrite E, Z.pow_add_r by lia. ring.
  - rewrite shr_1_nonneg by assumption. reflexivity.
Qed.

Lemma shr_record_of_loc_m (m : Z) (l : location) :
  shr_m (shr_record_of_loc m l) = m.
Proof. destruct l as [|[]]; reflexivity. Qed.

Lemma loc_of_shr_record_of_loc (m : Z) (l : location) :
  loc_of_shr_record (shr_record_of_loc m l) = l.
Proof. destruct l as [|[]]; reflexivity. Qed.

(** [shr_fexp] brings a mantissa to the exponent of its binade, dropping
    low bits when it has too many. *)
Lemma shr_fexp_shape (m e : Z) (l : location) :
  0 <= m ->
  let n := Z.max 0 (fexp prec emax (Zdigits2 m + e) - e) in
  shr_m (fst (shr_fexp prec emax m e l)) = m / 2 ^ n /\
  snd (shr_fexp prec emax m e l) = e + n /\
  (n = 0 -> loc_of_shr_record (fst (shr_fexp prec emax m e l)) = l).
Proof.
  intros Hm n. unfold shr_fexp, shr. subst n.
  destruct (fexp prec emax (Zdigits2 m + e) - e) as [|p|p] eqn:E; simpl fst;
    simpl snd.
  - rewrite Z.max_l by lia. rewrite Z.div_1_r, shr_record_of_loc_m.
    split; [reflexivity|]. split; [lia|].
    intros _. apply loc_of_shr_record_of_loc.
  - rewrite Z.max_r by lia. rewrite iter_pos_shr_1
      by (rewrite shr_record_of_loc_m; assumption).
    rewrite shr_record_of_loc_m.
    split; [reflexivity|]. split; [reflexivity|]. lia.
  - rewrite Z.max_l by lia. rewrite Z.div_1_r, shr_record_of_loc_m.
    split; [reflexivity|]. split; [lia|].
    intros _. apply loc_of_shr_record_of_loc.
Qed.

Lemma round_nearest_even_range (m : Z) (l : location) :
  round_nearest_even m l = m \/ round_nearest_even m l = m + 1.
Proof.
  destruct l as [|[]]; simpl; auto.
  destruct (Z.even m); auto.
Qed.

(** The result of rounding: the mantissa is shifted to its binade, moved
    up by at most one unit, and shifted once more if that carried. *)
Lemma binary_round_aux_shape (sx : bool) (m e : Z) (l : location) :
  0 <= m ->
  let n := Z.max 0 (fexp prec emax (Zdigits2 m + e) - e) in
  exists m2,
    (m2 = m / 2 ^ n \/ m2 = m / 2 ^ n + 1) /\
    (n = 0 -> l = loc_Exact -> m2 = m) /\
    let n2 := Z.max 0 (fexp prec emax (Zdigits2 m2 + (e + n)) - (e + n)) in
    binary_round_aux prec emax sx m e l =
      match m2 / 2 ^ n2 with
      | Z0 => S754_zero sx
      | Z.pos p =>
          if e + n + n2 <=? emax - prec then S754_finite sx p (e + n + n2)
          else S754_infinity sx
      | Z.neg _ => S754_nan
      end.
Proof.
  intros Hm n. unfold binary_round_aux.
  destruct (shr_fexp_shape m e l Hm) as (H1 & H2 & H3). fold n in H1, H2, H3.
  destruct (shr_fexp prec emax m e l) as [mrs' e'] eqn:E1.
  simpl fst in *. simpl snd in *. subst e'.
  set (m2 := round_nearest_even (shr_m mrs') (loc_of_shr_record mrs')).
  assert (Hm1 : 0 <= m / 2 ^ n).
  { apply Z.div_pos; [assumption|]. apply Z.pow_pos_nonneg; lia. }
  assert (Hm2 : 0 <= m2).
  { destruct (round_nearest_even_range (shr_m mrs') (loc_of_shr_record mrs'))
      as [R|R]; fold m2 in R; rewrite R, H1; lia. }
  exists m2. split.
  { rewrite <- H1. apply round_nearest_even_range. }
  split.
  { intros Hn Hl. unfold m2. rewrite (H3 Hn), Hl. simpl.
    rewrite H1, Hn. apply Z.div_1_r. }
  cbv zeta.
  destruct (shr_fexp_shape m2 (e + n) loc_Exact Hm2) as (G1 & G2 & _).
  destruct (shr_fexp prec emax m2 (e + n) loc_Exact) as [mrs'' e''] eqn:E2.
  simpl fst in *. simpl snd in *. subst e''. rewrite G1.
  reflexivity.
Qed.

(** ** Alignment and rounding of a positive mantissa *)

Lemma shl_align_fst (m : positive) (e e' : Z) :
  e' <= e -> Z.pos (fst (shl_align m e e')) = Z.pos m * 2 ^ (e - e').
Proof.
  intros H. unfold shl_align.
  destruct (e' - e) as [|d|d] eqn:E; simpl fst.
  - replace (e - e') with 0 by lia. simpl. lia.
  - lia.
  - change (Pos.iter xO m d) with (shift_pos d m).
    rewrite shift_pos_correct, Z.pow_pos_fold.
    replace (e - e') with (Z.pos d) by lia. ring.
Qed.

Lemma shl_align_snd (m : positive) (e e' : Z) :
  snd (shl_align m e e') = Z.min e e'.
Proof.
  unfold shl_align.
  destruct (e' - e) as [|d|d] eqn:E; simpl snd; lia.
Qed.

Lemma fexp_eq (x : Z) : fexp prec emax x = Z.max (x - 53) (-1074).
Proof. reflexivity. Qed.

Lemma fexp_le (x y : Z) : x <= y -> fexp prec emax x <= fexp prec emax y.
Proof. rewrite !fexp_eq. lia. Qed.

(** A canonical mantissa has at most [prec] digits, and exactly [prec]
    above the smallest exponent. *)
Lemma bounded_inv (m : positive) (e : Z) :
  bounded prec emax m e = true ->
  fexp prec emax (Z.pos (digits2_pos m) + e) = e /\
  -1074 <= e <= 971 /\
  Z.pos (digits2_pos m) <= 53 /\
  (-1074 < e -> Z.pos (digits2_pos m) = 53).
Proof.
  unfold bounded, canonical_mantissa. intros H.
  apply andb_true_iff in H. destruct H as [H1 H2].
  apply Z.eqb_eq in H1. apply Z.leb_le in H2.
  change (emax - prec) with 971 in H2.
  split; [exact H1|]. rewrite fexp_eq in H1. lia.
Qed.

Lemma pow2_pos (k : Z) : 0 <= k -> 0 < 2 ^ k.
Proof. intros. apply Z.pow_pos_nonneg; lia. Qed.

(** Rounding [m * 2^e] to the format, with [t] the exponent of the binade
    of the exact value: [m2] is the mantissa at exponent [t] after rounding
    to nearest, [n2] the final shift when rounding carried into the next
    binade. *)
Lemma binary_round_fine (sx : bool) (m : positive) (e : Z) :
  let t := fexp prec emax (Z.pos (digits2_pos m) + e) in
  exists m2 n2,
    0 <= m2 /\
    (t <= e -> m2 = Z.pos m * 2 ^ (e - t) /\ n2 = 0) /\
    (e <= t ->
       m2 = Z.pos m / 2 ^ (t - e) \/ m2 = Z.pos m / 2 ^ (t - e) + 1) /\
    (n2 = 0 \/ n2 = 1 /\ m2 = 2 ^ 53) /\
    binary_round prec emax sx m e =
      match m2 / 2 ^ n2 with
      | Z0 => S754_zero sx
      | Z.pos p =>
          if t + n2 <=? 971 then S754_finite sx p (t + n2)
          else S754_infinity sx
      | Z.neg _ => S754_nan
      end.
Proof.
  intros t. unfold binary_round. fold t.
  pose proof (shl_align_snd m e t) as Hs.
  destruct (shl_align m e t) as [mz ez] eqn:E. simpl snd in Hs.
  remember (Z.min e t) as ez' eqn:Hez'. subst ez. rename ez' into ez.
  assert (Hmz : Z.pos mz = Z.pos m * 2 ^ (e - ez)).
  { destruct (Z.le_ge_cases t e) as [Hte|Hte].
    - replace ez with t by lia.
      rewrite <- (shl_align_fst m e t Hte), E. reflexivity.
    - replace ez with e by lia. replace (e - e) with 0 by lia.
      unfold shl_align in E.
      destruct (t - e) eqn:E2; [| |lia]; inversion E; subst; lia. }
  assert (Hd : Zdigits2 (Z.pos mz) + ez = Z.pos (digits2_pos m) + e).
  { rewrite Hmz, Zdigits2_mul_pow2 by lia. simpl Zdigits2. lia. }
  destruct (binary_round_aux_shape sx (Z.pos mz) ez loc_Exact) as
    (m2 & Hm2 & Hex & Hres); [lia|].
  rewrite Hd in *. fold t in Hm2, Hex, Hres.
  assert (Ht : Z.pos (digits2_pos m) + e - 53 <= t /\ -1074 <= t).
  { unfold t. rewrite fexp_eq. lia. }
  assert (Hn : ez + Z.max 0 (t - ez) = t) by lia.
  rewrite Hn in Hres.
  assert (Hm1 : 0 <= Z.pos mz / 2 ^ Z.max 0 (t - ez)).
  { apply Z.div_pos; [lia|apply pow2_pos; lia]. }
  assert (Hm2' : 0 <= m2) by (destruct Hm2; lia).
  assert (Hdm1 : Zdigits2 (Z.pos mz / 2 ^ Z.max 0 (t - ez)) <= 53).
  { rewrite Zdigits2_div_pow2 by lia.
    assert (Zdigits2 (Z.pos mz) = Z.pos (digits2_pos m) + e - ez) by lia.
    lia. }
  assert (Hlt : m2 <= 2 ^ 53).
  { apply Zdigits2_lt_pow2 in Hdm1; lia. }
  set (n2 := Z.max 0 (fexp prec emax (Zdigits2 m2 + t) - t)) in *.
  exists m2, n2. split; [assumption|].
  split.
  { intros Hte. assert (Hz : Z.max 0 (t - ez) = 0) by lia.
    rewrite (Hex Hz eq_refl). split.
    - rewrite Hmz. replace ez with t by lia. reflexivity.
    - unfold n2. rewrite fexp_eq.
      rewrite (Hex Hz eq_refl), Hmz, Zdigits2_mul_pow2 by lia.
      simpl Zdigits2. lia. }
  split.
  { intros Het. assert (Hee : ez = e) by lia. rewrite Hee in *.
    rewrite Z.max_r in Hm2 by lia.
    replace (e - e) with 0 in Hmz by lia.
    rewrite Z.mul_1_r in Hmz. rewrite <- Hmz. exact Hm2. }
  split.
  { assert (Hd2 : Zdigits2 m2 <= 53 \/ m2 = 2 ^ 53).
    { destruct (Z.eq_dec m2 (2 ^ 53)) as [->|Hne]; [right; reflexivity|].
      left. apply Zdigits2_lt_pow2; lia. }
    unfold n2. rewrite fexp_eq. destruct Hd2 as [Hd2|Hd2].
    - left. lia.
    - right. split; [|assumption]. rewrite Hd2. simpl Zdigits2. lia. }
  exact Hres.
Qed.

(** ** The order on values that are not NaN *)

Ltac cmp_cases :=
  repeat match goal with
  | H : context [Z.compare ?a ?b] |- _ => destruct (Z.compare_spec a b)
  | |- context [Z.compare ?a ?b] => destruct (Z.compare_spec a b)
  | H : context [Pos.compare_cont Eq ?a ?b] |- _ =>
      change (Pos.compare_cont Eq a b) with (Pos.compare a b) in H;
      destruct (Pos.compare_spec a b)
  | |- context [Pos.compare_cont Eq ?a ?b] =>
      change (Pos.compare_cont Eq a b) with (Pos.compare a b);
      destruct (Pos.compare_spec a b)
  end;
  simpl in *; try discriminate; try reflexivity; try lia.

Lemma SFleb_refl (x : spec_float) : x <> S754_nan -> SFleb x x = true.
Proof.
  unfold SFleb. destruct x as [s|s| |s m e]; try destruct s; simpl;
    try reflexivity; try congruence; intros _; cmp_cases.
Qed.

Lemma SFleb_trans (x y z : spec_float) :
  SFleb x y = true -> SFleb y z = true -> SFleb x z = true.
Proof.
  unfold SFleb.
  destruct x as [sx|sx| |sx mx ex], y as [sy|sy| |sy my ey],
    z as [sz|sz| |sz mz ez]; simpl; try discriminate; try reflexivity;
    try destruct sx; try destruct sy; try destruct sz; simpl;
    try discriminate; try reflexivity; intros H1 H2; cmp_cases.
Qed.

Lemma SFltb_false_leb (x y : spec_float) :
  x <> S754_nan -> y <> S754_nan -> SFltb x y = false -> SFleb y x = true.
Proof.
  unfold SFleb, SFltb.
  destruct x as [sx|sx| |sx mx ex], y as [sy|sy| |sy my ey]; simpl;
    try congruence; try destruct sx; try destruct sy; simpl;
    try discriminate; try reflexivity; intros _ _ H; cmp_cases.
Qed.

Lemma SFleb_false_ltb (x y : spec_float) :
  x <> S754_nan -> y <> S754_nan -> SFleb x y = false -> SFltb y x = true.
Proof.
  unfold SFleb, SFltb.
  destruct x as [sx|sx| |sx mx ex], y as [sy|sy| |sy my ey]; simpl;
    try congruence; try destruct sx; try destruct sy; simpl;
    try discriminate; try reflexivity; intros _ _ H; cmp_cases.
Qed.

Lemma SFltb_leb (x y : spec_float) : SFltb x y = true -> SFleb x y = true.
Proof.
  unfold SFleb, SFltb. destruct (SFcompare x y) as [[]|]; congruence.
Qed.

Lemma SFleb_not_nan (x y : spec_float) :
  SFleb x y = true -> x <> S754_nan /\ y <> S754_nan.
Proof.
  unfold SFleb. destruct x, y; simpl; try discriminate; split; discriminate.
Qed.

Lemma SFltb_leb_trans (x y z : spec_float) :
  SFltb x y = true -> SFleb y z = true -> SFltb x z = true.
Proof.
  unfold SFleb, SFltb.
  destruct x as [sx|sx| |sx mx ex], y as [sy|sy| |sy my ey],
    z as [sz|sz| |sz mz ez]; simpl; try discriminate; try reflexivity;
    try destruct sx; try destruct sy; try destruct sz; simpl;
    try discriminate; try reflexivity; intros H1 H2; cmp_cases.
Qed.

Lemma SFcompare_refl (x : spec_float) :
  x <> S754_nan -> SFcompare x x = Some Eq.
Proof.
  destruct x as [s|s| |s m e]; try destruct s; simpl;
    try reflexivity; try congruence; intros _; cmp_cases.
Qed.

Lemma SFhas_sign_nonneg (x : spec_float) :
  SFhas_sign false x = true -> SFleb (S754_zero false) x = true.
Proof.
  destruct x as [s|s| |s m e]; try destruct s; simpl; intros H;
    try discriminate H; reflexivity.
Qed.

Lemma SFnonneg_cases (x : spec_float) :
  SFleb (S754_zero false) x = true ->
  (exists s, x = S754_zero s) \/ x = S754_infinity false \/
  exists m e, x = S754_finite false m e.
Proof.
  destruct x as [s|s| |s m e]; try destruct s; simpl; try discriminate;
    eauto.
Qed.

(** ** Rounding is monotone around representable values *)

Ltac cmp_goal :=
  repeat match goal with
  | |- context [Z.compare ?a ?b] => destruct (Z.compare_spec a b)
  | |- context [Pos.compare_cont Eq ?a ?b] =>
      change (Pos.compare_cont Eq a b) with (Pos.compare a b);
      destruct (Pos.compare_spec a b)
  end;
  try reflexivity; try lia.

Lemma div_pow2_nonneg (a k : Z) : 0 <= a -> 0 <= k -> 0 <= a / 2 ^ k.
Proof. intros. apply Z.div_pos; [assumption|apply pow2_pos; assumption]. Qed.

(** Rounding never produces NaN and keeps the sign it is given. *)
Lemma binary_round_sign (s : bool) (q : positive) (e : Z) :
  binary_round prec emax s q e = S754_zero s \/
  binary_round prec emax s q e = S754_infinity s \/
  exists p e', binary_round prec emax s q e = S754_finite s p e'.
Proof.
  destruct (binary_round_fine s q e) as (m2 & n2 & Hm2 & _ & _ & Hn2 & Hres).
  rewrite Hres.
  assert (0 <= m2 / 2 ^ n2)
    by (apply div_pow2_nonneg; destruct Hn2 as [->|[-> _]]; lia).
  destruct (m2 / 2 ^ n2) as [|p|p]; [auto| |lia].
  destruct (_ <=? _); eauto.
Qed.

(** A value at least as large as the representable [mx * 2^ex] rounds to
    a value at least as large. *)
Lemma binary_round_above (s : bool) (q : positive) (ez : Z)
    (mx : positive) (ex : Z) :
  bounded prec emax mx ex = true -> ez <= ex ->
  Z.pos mx * 2 ^ (ex - ez) <= Z.pos q ->
  binary_round prec emax s q ez = S754_infinity s \/
  exists p e,
    binary_round prec emax s q ez = S754_finite s p e /\
    (ex < e \/ e = ex /\ Z.pos mx <= Z.pos p).
Proof.
  intros Bx Hez Hq.
  destruct (bounded_inv _ _ Bx) as (Cx & Rx & Dx & Nx).
  destruct (binary_round_fine s q ez) as
    (m2 & n2 & Hm2 & Hexact & Hround & Hn2 & Hres).
  rewrite Hres. clear Hres.
  set (t := fexp prec emax (Z.pos (digits2_pos q) + ez)) in *.
  assert (HpX : 0 < 2 ^ (ex - ez)) by (apply pow2_pos; lia).
  assert (HDq : Z.pos (digits2_pos mx) + (ex - ez) <= Z.pos (digits2_pos q)).
  { change (Zdigits2 (Z.pos mx) + (ex - ez) <= Zdigits2 (Z.pos q)).
    rewrite <- Zdigits2_mul_pow2 by lia. apply Zdigits2_le; lia. }
  assert (Ht : ex <= t).
  { rewrite <- Cx. apply fexp_le. lia. }
  assert (Hlow : Z.pos q / 2 ^ (t - ez) <= m2)
    by (destruct (Hround ltac:(lia)); lia).
  assert (Hm2x : t = ex -> Z.pos mx <= m2).
  { intros Hte. rewrite Hte in Hlow.
    assert (Z.pos mx <= Z.pos q / 2 ^ (ex - ez)); [|lia].
    apply Z.div_le_lower_bound; lia. }
  assert (Hm2p : 0 < m2).
  { destruct (Z.eq_dec t ex) as [Hte|Hte]; [specialize (Hm2x Hte); lia|].
    assert (Ht' : t = Z.pos (digits2_pos q) + ez - 53).
    { clear - Ht Hte Rx. unfold t in *. rewrite fexp_eq in *. lia. }
    assert (HD1 : Zdigits2 (Z.pos q / 2 ^ (t - ez)) = 53).
    { rewrite Zdigits2_div_pow2 by lia. simpl Zdigits2. lia. }
    assert (0 <= Z.pos q / 2 ^ (t - ez)) by (apply div_pow2_nonneg; lia).
    destruct (Z.pos q / 2 ^ (t - ez)) eqn:E1; simpl in HD1; lia. }
  assert (Hpos : 0 < m2 / 2 ^ n2).
  { destruct Hn2 as [->|[-> ->]]; [simpl; rewrite Z.div_1_r; lia|].
    reflexivity. }
  destruct (m2 / 2 ^ n2) as [|p|p] eqn:Ep; try lia.
  destruct (Z.leb_spec (t + n2) 971) as [Hov|Hov]; [|left; reflexivity].
  right. exists p, (t + n2). split; [reflexivity|].
  destruct Hn2 as [->|[-> _]]; [|lia].
  destruct (Z.eq_dec t ex) as [Hte|Hte]; [|lia].
  right. split; [lia|]. rewrite <- Ep. simpl. rewrite Z.div_1_r. auto.
Qed.

(** A value below the representable [mx * 2^ex] rounds to a value that is
    at most as large; in particular it does not overflow. *)
Lemma binary_round_below (s : bool) (q : positive) (ez : Z)
    (mx : positive) (ex : Z) :
  bounded prec emax mx ex = true -> ez <= ex ->
  Z.pos q < Z.pos mx * 2 ^ (ex - ez) ->
  binary_round prec emax s q ez = S754_zero s \/
  exists p e,
    binary_round prec emax s q ez = S754_finite s p e /\
    (e < ex \/ e = ex /\ Z.pos p <= Z.pos mx).
Proof.
  intros Bx Hez Hq.
  destruct (bounded_inv _ _ Bx) as (Cx & Rx & Dx & Nx).
  destruct (binary_round_fine s q ez) as
    (m2 & n2 & Hm2 & Hexact & Hround & Hn2 & Hres).
  rewrite Hres. clear Hres.
  set (t := fexp prec emax (Z.pos (digits2_pos q) + ez)) in *.
  assert (HpX : 0 < 2 ^ (ex - ez)) by (apply pow2_pos; lia).
  assert (Hmx : Z.pos mx < 2 ^ 53).
  { apply Zdigits2_lt_pow2; simpl Zdigits2; lia. }
  assert (HDq : Z.pos (digits2_pos q) <= Z.pos (digits2_pos mx) + (ex - ez)).
  { change (Zdigits2 (Z.pos q) <= Zdigits2 (Z.pos mx) + (ex - ez)).
    rewrite <- Zdigits2_mul_pow2 by lia. apply Zdigits2_le; lia. }
  assert (Ht : -1074 <= t <= ex).
  { split; [unfold t; rewrite fexp_eq; lia|].
    rewrite <- Cx. apply fexp_le. lia. }
  assert (Hfin : t + n2 <= ex /\ (t + n2 = ex -> m2 / 2 ^ n2 <= Z.pos mx)).
  { destruct (Z.le_ge_cases t ez) as [Htz|Htz].
    - destruct (Hexact Htz) as [-> ->]. split; [lia|]. intros Hte.
      assert (ez = ex) by lia. assert (t = ex) by lia.
      replace (ez - t) with 0 by lia.
      replace (ex - ez) with 0 in Hq by lia.
      simpl. rewrite Z.div_1_r. lia.
    - assert (Hup : m2 <= Z.pos q / 2 ^ (t - ez) + 1)
        by (destruct (Hround ltac:(lia)); lia).
      assert (Hm2x : t = ex -> m2 <= Z.pos mx).
      { intros Hte. rewrite Hte in Hup.
        assert (Z.pos q / 2 ^ (ex - ez) < Z.pos mx); [|lia].
        apply Z.div_lt_upper_bound; lia. }
      destruct Hn2 as [->|[-> Hm2e]].
      + rewrite Z.add_0_r. split; [lia|]. intros Hte.
        simpl. rewrite Z.div_1_r. auto.
      + assert (t < ex).
        { destruct (Z.eq_dec t ex) as [Hte|Hte]; [|lia].
          specialize (Hm2x Hte). lia. }
        split; [lia|]. intros Hte. rewrite Hm2e.
        change (2 ^ 53 / 2 ^ 1) with (2 ^ 52).
        apply Zdigits2_ge_pow2; [lia|]. simpl Zdigits2. lia. }
  destruct Hfin as [Hf1 Hf2].
  assert (0 <= m2 / 2 ^ n2)
    by (apply div_pow2_nonneg; destruct Hn2 as [->|[-> _]]; lia).
  destruct (m2 / 2 ^ n2) as [|p|p] eqn:Ep; [left; reflexivity| |lia].
  destruct (Z.leb_spec (t + n2) 971) as [Hov|Hov]; [|lia].
  right. exists p, (t + n2). split; [reflexivity|]. lia.
Qed.

(** The aligned mantissas of an addition or subtraction. *)
Lemma aligned_mantissas (mx : positive) (ex : Z) (my : positive) (ey : Z) :
  let ez := Z.min ex ey in
  Z.pos (fst (shl_align mx ex ez)) = Z.pos mx * 2 ^ (ex - ez) /\
  Z.pos (fst (shl_align my ey ez)) = Z.pos my * 2 ^ (ey - ez) /\
  ez <= ex /\ ez <= ey.
Proof.
  intros ez. split; [apply shl_align_fst; lia|].
  split; [apply shl_align_fst; lia|]. lia.
Qed.

(** ** Adding a non-negative value never decreases a value *)

Lemma SFadd_finite_mono (sx : bool) (mx : positive) (ex : Z)
    (my : positive) (ey : Z) :
  bounded prec emax mx ex = true -> bounded prec emax my ey = true ->
  SFleb (S754_finite sx mx ex)
    (SFadd prec emax (S754_finite sx mx ex) (S754_finite false my ey)) = true.
Proof.
  intros Bx By.
  unfold SFadd. cbv zeta.
  destruct (aligned_mantissas mx ex my ey) as (HX & HY & Hzx & Hzy).
  set (ez := Z.min ex ey) in *.
  set (X := Z.pos (fst (shl_align mx ex ez))) in *.
  set (Y := Z.pos (fst (shl_align my ey ez))) in *.
  assert (HpY : 0 < 2 ^ (ey - ez)) by (apply pow2_pos; lia).
  assert (HY0 : 0 < Y) by lia.
  change (cond_Zopp false Y) with Y.
  destruct sx; [change (cond_Zopp true X) with (- X)
              |change (cond_Zopp false X) with X].
  - (* a negative value plus a positive one *)
    destruct (- X + Y) as [|q|q] eqn:EM; simpl binary_normalize.
    + reflexivity.
    + destruct (binary_round_sign false q ez) as [E|[E|(p & e' & E)]];
        rewrite E; reflexivity.
    + destruct (binary_round_below true q ez mx ex Bx Hzx) as
        [E|(p & e' & E & Hc)]; [lia| |]; rewrite E; [reflexivity|].
      unfold SFleb. simpl SFcompare. cmp_goal.
  - (* two positive values *)
    destruct (X + Y) as [|q|q] eqn:EM; try lia. simpl binary_normalize.
    destruct (binary_round_above false q ez mx ex Bx Hzx) as
      [E|(p & e' & E & Hc)]; [lia| |]; rewrite E; [reflexivity|].
    unfold SFleb. simpl SFcompare. cmp_goal.
Qed.

Lemma SFadd_nonneg_mono (x y : spec_float) :
  valid_binary x = true -> valid_binary y = true ->
  x <> S754_nan -> x <> S754_infinity true ->
  SFleb (S754_zero false) y = true ->
  SFleb x (SFadd prec emax x y) = true.
Proof.
  intros Vx Vy Nx Ix Hy.
  destruct y as [sy|sy| |sy my ey]; try discriminate.
  - destruct x as [sx|sx| |sx mx ex]; try congruence.
    + destruct sx, sy; reflexivity.
    + destruct sx; [congruence|reflexivity].
    + simpl. apply SFleb_refl. discriminate.
  - destruct sy; [discriminate|].
    destruct x as [sx|sx| |sx mx ex]; try congruence.
    + reflexivity.
    + destruct sx; [congruence|reflexivity].
    + destruct sx; reflexivity.
  - destruct sy; [discriminate|].
    destruct x as [sx|sx| |sx mx ex]; try congruence.
    + reflexivity.
    + destruct sx; [congruence|reflexivity].
    + apply SFadd_finite_mono; assumption.
Qed.

(** ** Rounding with an arbitrary location: sign and overflow *)

Lemma binary_round_aux_cases (s : bool) (m e : Z) (l : location) :
  0 <= m ->
  let E := Z.max e (fexp prec emax (Zdigits2 m + e)) in
  binary_round_aux prec emax s m e l = S754_zero s \/
  (binary_round_aux prec emax s m e l = S754_infinity s /\ 971 < E + 1) \/
  exists p e', binary_round_aux prec emax s m e l = S754_finite s p e'.
Proof.
  intros Hm E.
  destruct (binary_round_aux_shape s m e l Hm) as (m2 & Hm2 & _ & Hres).
  cbv zeta in Hres. rewrite Hres. clear Hres.
  set (n := Z.max 0 (fexp prec emax (Zdigits2 m + e) - e)) in *.
  assert (HE : e + n = E) by (unfold E, n; lia). rewrite HE.
  assert (Hn : 0 <= n) by (unfold n; lia).
  assert (HEmin : -1074 <= E) by (unfold E; rewrite fexp_eq; lia).
  assert (Hm1 : 0 <= m / 2 ^ n) by (apply div_pow2_nonneg; lia).
  assert (HD1 : Zdigits2 (m / 2 ^ n) <= 53).
  { rewrite Zdigits2_div_pow2 by lia. unfold n. rewrite fexp_eq. lia. }
  assert (Hlt : m / 2 ^ n < 2 ^ 53) by (apply Zdigits2_lt_pow2; lia).
  assert (HD2 : Zdigits2 m2 <= 54) by (apply Zdigits2_lt_pow2; lia).
  set (n2 := Z.max 0 (fexp prec emax (Zdigits2 m2 + E) - E)).
  assert (Hn2 : 0 <= n2 <= 1) by (unfold n2; rewrite fexp_eq; lia).
  assert (0 <= m2 / 2 ^ n2) by (apply div_pow2_nonneg; lia).
  destruct (m2 / 2 ^ n2) as [|p|p]; [auto| |lia].
  change (emax - prec) with 971.
  destruct (Z.leb_spec (E + n2) 971); [eauto|].
  right. left. split; [reflexivity|lia].
Qed.

Lemma binary_round_aux_sign (s : bool) (m e : Z) (l : location) :
  0 <= m -> SFhas_sign s (binary_round_aux prec emax s m e l) = true.
Proof.
  intros Hm.
  destruct (binary_round_aux_cases s m e l Hm) as
    [E|[[E _]|(p & e' & E)]]; rewrite E; simpl; apply eqb_reflx.
Qed.

Lemma binary_normalize_not_nan (m e : Z) (sz : bool) :
  binary_normalize prec emax m e sz <> S754_nan.
Proof.
  destruct m as [|q|q]; simpl; [discriminate| |].
  - destruct (binary_round_sign false q e) as [E|[E|(p & e' & E)]];
      rewrite E; discriminate.
  - destruct (binary_round_sign true q e) as [E|[E|(p & e' & E)]];
      rewrite E; discriminate.
Qed.

(** ** Products *)

Lemma SFmul_sign (x : spec_float) (sx sy : bool) (my : positive) (ey : Z) :
  SFhas_sign sx x = true ->
  SFhas_sign (xorb sx sy) (SFmul prec emax x (S754_finite sy my ey)) = true.
Proof.
  intros Hx.
  destruct x as [s1|s1| |s1 m1 e1]; simpl in *; try discriminate;
    apply eqb_prop in Hx; subst; try apply eqb_reflx.
  apply binary_round_aux_sign. lia.
Qed.

Lemma SFmul_finite_not_nan (x y : spec_float) :
  SFis_finite x = true -> SFis_finite y = true ->
  SFmul prec emax x y <> S754_nan.
Proof.
  intros Fx Fy.
  destruct x as [s1|s1| |s1 m1 e1], y as [s2|s2| |s2 m2 e2];
    simpl in *; try discriminate.
  pose proof (binary_round_aux_sign (xorb s1 s2) (Z.pos (m1 * m2))
                (e1 + e2) loc_Exact ltac:(lia)) as H.
  intros E. rewrite E in H. discriminate.
Qed.

(** ** Differences of non-negative finite values stay finite *)

Lemma SFsub_nonneg_finite (x y : spec_float) :
  valid_binary x = true -> valid_binary y = true ->
  SFis_finite x = true -> SFis_finite y = true ->
  SFleb (S754_zero false) x = true -> SFleb (S754_zero false) y = true ->
  SFis_finite (SFsub prec emax x y) = true.
Proof.
  intros Vx Vy Fx Fy Sx Sy.
  destruct x as [sx|sx| |sx mx ex], y as [sy|sy| |sy my ey];
    simpl in Fx, Fy; try discriminate.
  - destruct sx, sy; reflexivity.
  - reflexivity.
  - reflexivity.
  - destruct sx; [discriminate|]. destruct sy; [discriminate|].
    unfold SFsub. cbv zeta.
    destruct (aligned_mantissas mx ex my ey) as (HX & HY & Hzx & Hzy).
    set (ez := Z.min ex ey) in *.
    set (X := Z.pos (fst (shl_align mx ex ez))) in *.
    set (Y := Z.pos (fst (shl_align my ey ez))) in *.
    change (cond_Zopp false Y) with Y. change (cond_Zopp false X) with X.
    assert (HpX : 0 < 2 ^ (ex - ez)) by (apply pow2_pos; lia).
    assert (HpY : 0 < 2 ^ (ey - ez)) by (apply pow2_pos; lia).
    destruct (X - Y) as [|q|q] eqn:EM; simpl binary_normalize.
    + reflexivity.
    + destruct (binary_round_below false q ez mx ex Vx Hzx) as
        [E|(p & e' & E & _)]; [lia| |]; rewrite E; reflexivity.
    + destruct (binary_round_below true q ez my ey Vy Hzy) as
        [E|(p & e' & E & _)]; [lia| |]; rewrite E; reflexivity.
Qed.

Lemma SFsub_finite_not_nan (x y : spec_float) :
  SFis_finite x = true -> SFis_finite y = true ->
  SFsub prec emax x y <> S754_nan.
Proof.
  intros Fx Fy.
  destruct x as [sx|sx| |sx mx ex], y as [sy|sy| |sy my ey];
    simpl in Fx, Fy; try discriminate.
  - destruct sx, sy; discriminate.
  - apply binary_normalize_not_nan.
Qed.

(** ** Quotients *)

(** Dividing a finite value by one of magnitude at least 2 cannot
    overflow. *)
Lemma SFdiv_finite (x : spec_float) (sy : bool) (my : positive) (ey : Z) :
  valid_binary x = true -> SFis_finite x = true ->
  2 <= Z.pos (digits2_pos my) + ey ->
  SFis_finite (SFdiv prec emax x (S754_finite sy my ey)) = true.
Proof.
  intros Vx Fx Hy.
  destruct x as [sx|sx| |sx mx ex]; simpl in Fx; try discriminate;
    [reflexivity|].
  destruct (bounded_inv _ _ Vx) as (Cx & Rx & Dx & Nx).
  unfold SFdiv, SFdiv_core_binary. cbv zeta.
  set (d1 := Zdigits2 (Z.pos mx)). set (d2 := Zdigits2 (Z.pos my)).
  assert (Hd1 : d1 = Z.pos (digits2_pos mx)) by reflexivity.
  assert (Hd2 : d2 = Z.pos (digits2_pos my)) by reflexivity.
  set (e' := Z.min (fexp prec emax (d1 + ex - (d2 + ey))) (ex - ey)).
  set (sh := ex - ey - e').
  set (m' := match sh with
             | Z0 => Z.pos mx
             | Z.pos _ => Z.shiftl (Z.pos mx) sh
             | Z.neg _ => 0
             end).
  assert (Hsh : 0 <= sh) by (unfold sh, e'; lia).
  assert (Hm' : m' = Z.pos mx * 2 ^ sh).
  { unfold m'. destruct sh as [|p|p] eqn:E; [simpl; lia| |lia].
    rewrite Z.shiftl_mul_pow2 by lia. reflexivity. }
  pose proof (Z_div_mod m' (Z.pos my) ltac:(lia)) as Hdm.
  destruct (Z.div_eucl m' (Z.pos my)) as [q r] eqn:Eqr.
  destruct Hdm as [Hdm Hr].
  assert (Hp : 0 < 2 ^ sh) by (apply pow2_pos; lia).
  assert (Hq0 : 0 <= q) by nia.
  assert (Hmy : 2 ^ (d2 - 1) <= Z.pos my).
  { apply Zdigits2_ge_pow2; [lia|]. fold d2. lia. }
  assert (Hd2pos : 1 <= d2) by (rewrite Hd2; lia).
  assert (HDq : Zdigits2 q <= Z.max 0 (d1 + sh - (d2 - 1))).
  { assert (Hqle : q <= m' / 2 ^ (d2 - 1)).
    { apply Z.div_le_lower_bound; [apply pow2_pos; lia|].
      assert (0 < 2 ^ (d2 - 1)) by (apply pow2_pos; lia). nia. }
    etransitivity; [apply Zdigits2_le; [assumption|exact Hqle]|].
    rewrite Zdigits2_div_pow2 by (try lia; nia).
    rewrite Hm', Zdigits2_mul_pow2 by lia. fold d1. lia. }
  destruct (binary_round_aux_cases (xorb sx sy) q e' (new_location (Z.pos my) r)
              Hq0) as [E|[[E Hov]|(p & e'' & E)]]; rewrite E;
    [reflexivity| |reflexivity].
  exfalso. revert Hov. rewrite fexp_eq.
  assert (e' <= Z.max (d1 + ex - (d2 + ey) - 53) (-1074))
    by (unfold e'; rewrite fexp_eq; lia).
  unfold sh in HDq. lia.
Qed.

(** Dividing by an infinity gives a zero or NaN. *)
Lemma SFdiv_by_infinity (x : spec_float) (s : bool) :
  SFdiv prec emax x (S754_infinity s) = S754_nan \/
  exists s', SFdiv prec emax x (S754_infinity s) = S754_zero s'.
Proof. destruct x; simpl; eauto. Qed.

Lemma SFmul_nonneg (x : spec_float) (my : positive) (ey : Z) :
  SFleb (S754_zero false) x = true ->
  SFleb (S754_zero false)
    (SFmul prec emax x (S754_finite false my ey)) = true.
Proof.
  intros Hx.
  destruct (SFnonneg_cases x Hx) as [[s ->]|[->|(m & e & ->)]].
  - destruct s; reflexivity.
  - reflexivity.
  - apply SFhas_sign_nonneg.
    apply (SFmul_sign (S754_finite false m e) false false). reflexivity.
Qed.

Lemma SFopp_nonneg (x : spec_float) :
  x <> S754_nan -> SFleb (S754_zero false) x = false ->
  SFleb (S754_zero false) (SFopp x) = true.
Proof.
  destruct x as [s|s| |s m e]; try destruct s; simpl; intros N H;
    try discriminate H; try reflexivity. congruence.
Qed.

End B64.

(** * Binary64 arithmetic on primitive floats *)

Local Open Scope float_scope.

Lemma float_is_nan_spec (x : float) :
  is_nan x = match Prim2SF x with S754_nan => true | _ => false end.
Proof.
  unfold is_nan. rewrite eqb_spec. unfold SFeqb.
  destruct (Prim2SF x) as [s|s| |s m e] eqn:E;
    try (rewrite B64.SFcompare_refl by discriminate; reflexivity).
  reflexivity.
Qed.

Lemma float_is_finite_spec (x : float) :
  is_finite x = SFis_finite (Prim2SF x).
Proof.
  unfold is_finite. rewrite float_is_nan_spec.
  unfold is_infinity. rewrite eqb_spec, abs_spec.
  change (Prim2SF infinity) with (S754_infinity false).
  destruct (Prim2SF x) as [s|s| |s m e]; reflexivity.
Qed.

Lemma float_finite_not_nan (x : float) :
  is_finite x = true -> is_nan x = false.
Proof.
  rewrite float_is_finite_spec, float_is_nan_spec.
  destruct (Prim2SF x); simpl; congruence.
Qed.

Lemma float_not_nan (x : float) : is_nan x = false -> Prim2SF x <> S754_nan.
Proof. rewrite float_is_nan_spec. destruct (Prim2SF x); congruence. Qed.

Lemma float_leb_refl (x : float) : is_nan x = false -> (x <=? x) = true.
Proof.
  intros H. rewrite leb_spec. apply B64.SFleb_refl, float_not_nan, H.
Qed.

Lemma float_leb_trans (x y z : float) :
  (x <=? y) = true -> (y <=? z) = true -> (x <=? z) = true.
Proof. rewrite !leb_spec. apply B64.SFleb_trans. Qed.

Lemma float_ltb_leb_trans (x y z : float) :
  (x <? y) = true -> (y <=? z) = true -> (x <? z) = true.
Proof. rewrite !ltb_spec, leb_spec. apply B64.SFltb_leb_trans. Qed.

Lemma float_ltb_leb (x y : float) : (x <? y) = true -> (x <=? y) = true.
Proof. rewrite ltb_spec, leb_spec. apply B64.SFltb_leb. Qed.

Lemma float_leb_not_nan (x y : float) :
  (x <=? y) = true -> is_nan x = false /\ is_nan y = false.
Proof.
  rewrite leb_spec, !float_is_nan_spec. intros H.
  destruct (B64.SFleb_not_nan _ _ H) as [Hx Hy].
  destruct (Prim2SF x), (Prim2SF y); split; congruence.
Qed.

Lemma float_ltb_false_leb (x y : float) :
  is_nan x = false -> is_nan y = false ->
  (x <? y) = false -> (y <=? x) = true.
Proof.
  intros Hx Hy. rewrite ltb_spec, leb_spec.
  apply B64.SFltb_false_leb; apply float_not_nan; assumption.
Qed.

Lemma float_leb_false_ltb (x y : float) :
  is_nan x = false -> is_nan y = false ->
  (x <=? y) = false -> (y <? x) = true.
Proof.
  intros Hx Hy. rewrite ltb_spec, leb_spec.
  apply B64.SFleb_false_ltb; apply float_not_nan; assumption.
Qed.

(** [x <= x + y] for every [y >= 0], unless [x] is NaN or [-infinity]. *)
Lemma float_add_nonneg_mono (x y : float) :
  (neg_infinity <? x) = true -> (0 <=? y) = true -> (x <=? x + y) = true.
Proof.
  rewrite ltb_spec, !leb_spec, add_spec.
  change (Prim2SF neg_infinity) with (S754_infinity true).
  change (Prim2SF 0) with (S754_zero false).
  intros Hx Hy. apply B64.SFadd_nonneg_mono; try apply Prim2SF_valid;
    try assumption; intros E; rewrite E in Hx; discriminate.
Qed.

Lemma float_nonneg_above_neg_infinity (x : float) :
  (0 <=? x) = true -> (neg_infinity <? x) = true.
Proof.
  intros H. apply (float_ltb_leb_trans _ 0); [reflexivity|exact H].
Qed.

Lemma float_add_nonneg (a b : float) :
  (0 <=? a) = true -> (0 <=? b) = true -> (0 <=? a + b) = true.
Proof.
  intros Ha Hb. apply (float_leb_trans _ a); [exact Ha|].
  apply float_add_nonneg_mono; [|exact Hb].
  apply float_nonneg_above_neg_infinity, Ha.
Qed.

Lemma float_pos_finite_spec (k : float) :
  (0 <? k) = true -> is_finite k = true ->
  exists m e, Prim2SF k = S754_finite false m e.
Proof.
  rewrite ltb_spec, float_is_finite_spec.
  change (Prim2SF 0) with (S754_zero false).
  destruct (Prim2SF k) as [s|s| |s m e]; try destruct s; simpl;
    try discriminate. eauto.
Qed.

(** The product of a non-negative value and a positive finite one is
    non-negative (and not NaN). *)
Lemma float_mul_nonneg (d k : float) :
  (0 <=? d) = true -> (0 <? k) = true -> is_finite k = true ->
  (0 <=? d * k) = true.
Proof.
  intros Hd Hk Fk. destruct (float_pos_finite_spec k Hk Fk) as (m & e & E).
  revert Hd. rewrite !leb_spec, mul_spec, E.
  change (Prim2SF 0) with (S754_zero false).
  apply B64.SFmul_nonneg.
Qed.

Lemma float_mul_finite_not_nan (p q : float) :
  is_finite p = true -> is_finite q = true -> is_nan (p * q) = false.
Proof.
  rewrite !float_is_finite_spec, float_is_nan_spec, mul_spec.
  intros Hp Hq. pose proof (B64.SFmul_finite_not_nan _ _ Hp Hq) as H.
  unfold SF64mul. destruct (SFmul prec emax (Prim2SF p) (Prim2SF q));
    congruence.
Qed.

Lemma float_sub_finite_not_nan (a b : float) :
  is_finite a = true -> is_finite b = true -> is_nan (a - b) = false.
Proof.
  rewrite !float_is_finite_spec, float_is_nan_spec, sub_spec.
  intros Ha Hb. pose proof (B64.SFsub_finite_not_nan _ _ Ha Hb) as H.
  unfold SF64sub. destruct (SFsub prec emax (Prim2SF a) (Prim2SF b));
    congruence.
Qed.

(** The difference of two non-negative finite values is finite. *)
Lemma float_sub_nonneg_finite (a b : float) :
  is_finite a = true -> is_finite b = true ->
  (0 <=? a) = true -> (0 <=? b) = true -> is_finite (a - b) = true.
Proof.
  rewrite !float_is_finite_spec, !leb_spec, sub_spec.
  change (Prim2SF 0) with (S754_zero false).
  intros Fa Fb Ha Hb.
  apply B64.SFsub_nonneg_finite; try apply Prim2SF_valid; assumption.
Qed.

(** Converting milliseconds to hours cannot overflow. *)
Lemma float_div_3600000_finite (x : float) :
  is_finite x = true -> is_finite (x / 3600000) = true.
Proof.
  rewrite !float_is_finite_spec, div_spec. intros Hx.
  change (Prim2SF 3600000) with (S754_finite false 7730941132800000 (-31)).
  apply B64.SFdiv_finite; [apply Prim2SF_valid|exact Hx|].
  vm_compute. discriminate.
Qed.

(** A value that is not NaN and fails [0 <= w] is negative. *)
Lemma float_opp_nonneg (w : float) :
  is_nan w = false -> (0 <=? w) = false -> (0 <=? - w) = true.
Proof.
  intros Hn. rewrite !leb_spec, opp_spec.
  change (Prim2SF 0) with (S754_zero false).
  apply B64.SFopp_nonneg, float_not_nan, Hn.
Qed.

(** A quotient by an infinity is NaN or a zero. *)
Lemma float_div_by_infinity (x y : float) :
  is_nan y = false -> is_finite y = false ->
  is_nan (x / y) = true \/ (x / y =? 0) = true.
Proof.
  rewrite eqb_spec, !float_is_nan_spec, float_is_finite_spec, div_spec.
  change (Prim2SF 0) with (S754_zero false). unfold SF64div.
  destruct (Prim2SF y) as [s|s| |s m e]; simpl; try discriminate.
  intros _ _.
  destruct (B64.SFdiv_by_infinity (Prim2SF x) s) as [E|[s' E]]; rewrite E;
    auto.
Qed.

Lemma float_finite_above_neg_infinity (x : float) :
  is_finite x = true -> (neg_infinity <? x) = true.
Proof.
  rewrite float_is_finite_spec, ltb_spec.
  change (Prim2SF neg_infinity) with (S754_infinity true).
  destruct (Prim2SF x) as [s|s| |s m e]; simpl; try discriminate;
    reflexivity.
Qed.

(** A value between two finite values is finite. *)
Lemma float_between_finite (a k b : float) :
  is_finite a = true -> is_finite b = true ->
  (a <=? k) = true -> (k <=? b) = true -> is_finite k = true.
Proof.
  rewrite !float_is_finite_spec, !leb_spec.
  destruct (Prim2SF a) as [sa|sa| |sa ma ea]; simpl; try discriminate;
    destruct (Prim2SF b) as [sb|sb| |sb mb eb]; simpl; try discriminate;
    destruct (Prim2SF k) as [s|s| |s m e]; try destruct s; simpl;
    try reflexivity; try discriminate;
    try destruct sa; try destruct sb; simpl; discriminate.
Qed.

Lemma float_leb_ltb_false (x y : float) :
  (x <=? y) = true -> (y <? x) = false.
Proof.
  rewrite leb_spec, ltb_spec. intros H.
  destruct (SFltb (Prim2SF y) (Prim2SF x)) eqn:E; [|reflexivity].
  pose proof (B64.SFltb_leb_trans _ _ _ E H) as L.
  unfold SFltb in L.
  rewrite B64.SFcompare_refl in L; [discriminate|].
  apply (B64.SFleb_not_nan _ _ H).
Qed.

(** [abs] of NaN is NaN, which compares false with everything. *)
Lemma float_ltb_abs_nan (c x : float) :
  is_nan x = true -> (c <? abs x) = false.
Proof.
  rewrite float_is_nan_spec, ltb_spec, abs_spec.
  destruct (Prim2SF x); try discriminate. intros _.
  unfold SFltb. destruct (Prim2SF c); reflexivity.
Qed.

(** A zero is not above a positive value. *)
Lemma float_zero_not_above (c q : float) :
  (0 <? c) = true -> (q =? 0) = true -> (c <? q) = false.
Proof.
  rewrite !ltb_spec, eqb_spec.
  change (Prim2SF 0) with (S754_zero false).
  destruct (Prim2SF q) as [s|s| |s m e]; try destruct s;
    destruct (Prim2SF c) as [sc|sc| |sc mc ec]; try destruct sc; simpl;
    try discriminate; try reflexivity;
    unfold SFeqb; simpl; try discriminate;
    intros _ H; revert H; B64.cmp_cases.
Qed.

(** * Binary64 arithmetic: subtraction against comparison, signs *)

Module B64_sub.

Import B64.

Local Open Scope Z_scope.

(** Of two canonical mantissas, the one with the larger exponent stands
    for the larger magnitude. *)
Lemma canonical_exponent_lt (mx : positive) (ex : Z) (my : positive)
    (ey : Z) :
  bounded prec emax mx ex = true -> bounded prec emax my ey = true ->
  ex < ey -> Z.pos mx < Z.pos my * 2 ^ (ey - ex).
Proof.
  intros Bx By Hlt.
  destruct (bounded_inv _ _ Bx) as (_ & Rx & Dx & _).
  destruct (bounded_inv _ _ By) as (_ & Ry & _ & Ny).
  assert (Hmx : Z.pos mx < 2 ^ 53).
  { apply Zdigits2_lt_pow2; simpl Zdigits2; lia. }
  assert (Hmy : 2 ^ 52 <= Z.pos my).
  { apply Zdigits2_ge_pow2; [lia|]. simpl Zdigits2. lia. }
  assert (Hp : 2 ^ 1 <= 2 ^ (ey - ex)) by (apply Z.pow_le_mono_r; lia).
  change (2 ^ 1) with 2 in Hp. change (2 ^ 53) with (2 ^ 52 * 2) in Hmx.
  nia.
Qed.

(** The order of two finite values is the order of their mantissas once
    aligned on the smaller exponent. *)
Lemma SFcompare_aligned (sx : bool) (mx : positive) (ex : Z) (sy : bool)
    (my : positive) (ey : Z) :
  bounded prec emax mx ex = true -> bounded prec emax my ey = true ->
  let ez := Z.min ex ey in
  SFcompare (S754_finite sx mx ex) (S754_finite sy my ey) =
  Some (cond_Zopp sx (Z.pos mx * 2 ^ (ex - ez))
        ?= cond_Zopp sy (Z.pos my * 2 ^ (ey - ez))).
Proof.
  intros Bx By ez.
  assert (HpX : 0 < 2 ^ (ex - ez)) by (apply pow2_pos; unfold ez; lia).
  assert (HpY : 0 < 2 ^ (ey - ez)) by (apply pow2_pos; unfold ez; lia).
  assert (Hlt : ex < ey ->
                Z.pos mx * 2 ^ (ex - ez) < Z.pos my * 2 ^ (ey - ez)).
  { intros H. assert (Ez : ez = ex) by (unfold ez; lia). rewrite Ez.
    rewrite Z.sub_diag, Z.pow_0_r, Z.mul_1_r.
    apply canonical_exponent_lt; assumption. }
  assert (Hgt : ey < ex ->
                Z.pos my * 2 ^ (ey - ez) < Z.pos mx * 2 ^ (ex - ez)).
  { intros H. assert (Ez : ez = ey) by (unfold ez; lia). rewrite Ez.
    rewrite Z.sub_diag, Z.pow_0_r, Z.mul_1_r.
    apply canonical_exponent_lt; assumption. }
  assert (Heq : ex = ey ->
                Z.pos mx * 2 ^ (ex - ez) = Z.pos mx /\
                Z.pos my * 2 ^ (ey - ez) = Z.pos my).
  { intros H. assert (Ez : ez = ex) by (unfold ez; lia). rewrite Ez, <- H.
    rewrite Z.sub_diag, Z.pow_0_r, !Z.mul_1_r. split; reflexivity. }
  clearbody ez.
  simpl SFcompare. f_equal. symmetry.
  destruct sx, sy; unfold cond_Zopp.
  - destruct (Z.compare_spec ex ey) as [E|E|E].
    + destruct (Heq E) as [-> ->].
      change (Pos.compare_cont Eq mx my) with (Pos.compare mx my).
      rewrite Z.compare_opp. simpl. apply Pos.compare_antisym.
    + apply Z.compare_gt_iff. specialize (Hlt E). lia.
    + apply Z.compare_lt_iff. specialize (Hgt E). lia.
  - apply Z.compare_lt_iff. lia.
  - apply Z.compare_gt_iff. lia.
  - destruct (Z.compare_spec ex ey) as [E|E|E].
    + destruct (Heq E) as [-> ->]. reflexivity.
    + apply Z.compare_lt_iff. apply Hlt, E.
    + apply Z.compare_gt_iff. apply Hgt, E.
Qed.

(** Rounding a non-zero value at an exponent of the format never gives
    zero: underflow is gradual. *)
Lemma binary_round_nonzero (s : bool) (q : positive) (ez : Z) :
  -1074 <= ez ->
  binary_round prec emax s q ez = S754_infinity s \/
  exists p e, binary_round prec emax s q ez = S754_finite s p e.
Proof.
  intros Hez.
  destruct (binary_round_fine s q ez) as
    (m2 & n2 & Hm2 & Hexact & Hround & Hn2 & Hres).
  rewrite Hres. clear Hres.
  set (t := fexp prec emax (Z.pos (digits2_pos q) + ez)) in *.
  assert (Hm2p : 0 < m2).
  { destruct (Z.le_gt_cases t ez) as [Hte|Hte].
    - destruct (Hexact Hte) as [-> _].
      assert (0 < 2 ^ (ez - t)) by (apply pow2_pos; lia). lia.
    - assert (Ht' : t = Z.pos (digits2_pos q) + ez - 53).
      { clear - Hte Hez. unfold t in *. rewrite fexp_eq in *. lia. }
      assert (HD1 : Zdigits2 (Z.pos q / 2 ^ (t - ez)) = 53).
      { rewrite Zdigits2_div_pow2 by lia. simpl Zdigits2. lia. }
      assert (0 <= Z.pos q / 2 ^ (t - ez)) by (apply div_pow2_nonneg; lia).
      assert (0 < Z.pos q / 2 ^ (t - ez)).
      { destruct (Z.pos q / 2 ^ (t - ez)) eqn:E1; simpl in HD1; lia. }
      destruct (Hround ltac:(lia)); lia. }
  assert (Hpos : 0 < m2 / 2 ^ n2).
  { destruct Hn2 as [->|[-> ->]]; [simpl; rewrite Z.div_1_r; lia|].
    reflexivity. }
  destruct (m2 / 2 ^ n2) as [|p|p] eqn:Ep; try lia.
  destruct (_ <=? _); eauto.
Qed.

(** [x - y <= 0] exactly when [x <= y]. *)
Lemma SFsub_le_zero (x y : spec_float) :
  valid_binary x = true -> valid_binary y = true ->
  SFis_finite x = true -> SFis_finite y = true ->
  SFleb (SFsub prec emax x y) (S754_zero false) = SFleb x y.
Proof.
  intros Vx Vy Fx Fy.
  destruct x as [sx|sx| |sx mx ex], y as [sy|sy| |sy my ey];
    simpl in Fx, Fy; try discriminate.
  - destruct sx, sy; reflexivity.
  - destruct sy; reflexivity.
  - destruct sx; reflexivity.
  - unfold SFleb at 2.
    rewrite (SFcompare_aligned sx mx ex sy my ey Vx Vy).
    unfold SFsub. cbv zeta.
    destruct (aligned_mantissas mx ex my ey) as (HX & HY & Hzx & Hzy).
    destruct (bounded_inv _ _ Vx) as (_ & Rx & _ & _).
    destruct (bounded_inv _ _ Vy) as (_ & Ry & _ & _).
    set (ez := Z.min ex ey) in *.
    rewrite <- HX, <- HY.
    set (X := cond_Zopp sx (Z.pos (fst (shl_align mx ex ez)))).
    set (Y := cond_Zopp sy (Z.pos (fst (shl_align my ey ez)))).
    destruct (X - Y) as [|q|q] eqn:EM; simpl binary_normalize.
    + replace X with Y by lia. rewrite Z.compare_refl. reflexivity.
    + assert (C : (X ?= Y) = Gt) by (apply Z.compare_gt_iff; lia).
      rewrite C.
      destruct (binary_round_nonzero false q ez ltac:(lia)) as
        [E|(p & e' & E)]; rewrite E; reflexivity.
    + assert (C : (X ?= Y) = Lt) by (apply Z.compare_lt_iff; lia).
      rewrite C.
      destruct (binary_round_sign true q ez) as [E|[E|(p & e' & E)]];
        rewrite E; reflexivity.
Qed.

(** [x - x] is [+0]. *)
Lemma SFsub_diag (x : spec_float) :
  SFis_finite x = true -> SFsub prec emax x x = S754_zero false.
Proof.
  destruct x as [s|s| |s m e]; simpl; try discriminate; intros _.
  - destruct s; reflexivity.
  - rewrite Z.sub_diag. reflexivity.
Qed.

(** Adding a zero does not change the value. *)
Lemma SFadd_zero (x : spec_float) (s : bool) :
  x <> S754_nan -> SFeqb (SFadd prec emax x (S754_zero s)) x = true.
Proof.
  intros Nx. unfold SFeqb.
  destruct x as [sx|sx| |sx m e]; try congruence.
  - destruct sx, s; reflexivity.
  - simpl SFadd. rewrite SFcompare_refl by discriminate. reflexivity.
  - simpl SFadd. rewrite SFcompare_refl by discriminate. reflexivity.
Qed.

(** The quotient of two finite values carries the product of their
    signs. *)
Lemma SFdiv_sign (sx : bool) (mx : positive) (ex : Z) (sy : bool)
    (my : positive) (ey : Z) :
  SFhas_sign (xorb sx sy)
    (SFdiv prec emax (S754_finite sx mx ex) (S754_finite sy my ey)) = true.
Proof.
  unfold SFdiv, SFdiv_core_binary. cbv zeta.
  match goal with
  | |- context [Z.div_eucl ?a ?b] =>
      pose proof (Z_div_mod a b ltac:(lia)) as Hdm;
      assert (Ha : 0 <= a);
      [|destruct (Z.div_eucl a b) as [q r]]
  end.
  { match goal with
    | |- 0 <= match ?sh with _ => _ end =>
        destruct sh; try lia; apply Z.shiftl_nonneg; lia
    end. }
  destruct Hdm as [Hdm Hr].
  apply binary_round_aux_sign. nia.
Qed.

(** The product of a finite value with a non-negative finite value has
    the sign of the former. *)
Lemma SFmul_sign_finite (x y : spec_float) (sx : bool) :
  SFis_finite x = true -> SFis_finite y = true ->
  SFhas_sign sx x = true -> SFhas_sign false y = true ->
  SFhas_sign sx (SFmul prec emax x y) = true.
Proof.
  intros Fx Fy Sx Sy.
  destruct y as [sy|sy| |sy my ey]; simpl in Fy; try discriminate;
    simpl in Sy; destruct sy; try discriminate.
  - destruct x as [s1|s1| |s1 m1 e1]; simpl in *; try discriminate;
      rewrite xorb_false_r; exact Sx.
  - pose proof (SFmul_sign x sx false my ey Sx) as H.
    rewrite xorb_false_r in H. exact H.
Qed.

End B64_sub.

Local Open Scope float_scope.

Lemma float_eqb_refl (x : float) : is_nan x = false -> (x =? x) = true.
Proof.
  intros H. rewrite eqb_spec. unfold SFeqb.
  rewrite B64.SFcompare_refl; [reflexivity|apply float_not_nan, H].
Qed.

Lemma float_ltb_irrefl (x : float) : (x <? x) = false.
Proof.
  rewrite ltb_spec. unfold SFltb.
  destruct (Prim2SF x) as [s|s| |s m e] eqn:E; [| |reflexivity|];
    rewrite B64.SFcompare_refl by discriminate; reflexivity.
Qed.

(** NaN compares false with everything. *)
Lemma float_ltb_nan (x y : float) :
  is_nan x = true -> (x <? y) = false /\ (y <? x) = false.
Proof.
  rewrite float_is_nan_spec, !ltb_spec.
  destruct (Prim2SF x); try discriminate. intros _.
  unfold SFltb. split; [reflexivity|]. destruct (Prim2SF y); reflexivity.
Qed.

(** For finite values, [a - b <= 0] exactly when [a <= b]. *)
Lemma float_sub_le_zero (a b : float) :
  is_finite a = true -> is_finite b = true ->
  (a - b <=? 0) = (a <=? b).
Proof.
  rewrite !float_is_finite_spec, !leb_spec, sub_spec.
  change (Prim2SF 0) with (S754_zero false).
  intros Fa Fb.
  apply B64_sub.SFsub_le_zero; try apply Prim2SF_valid; assumption.
Qed.

Lemma float_sub_diag (x : float) : is_finite x = true -> x - x = 0.
Proof.
  rewrite float_is_finite_spec. intros Fx.
  apply Prim2SF_inj. rewrite sub_spec.
  change (Prim2SF 0) with (S754_zero false).
  apply B64_sub.SFsub_diag, Fx.
Qed.

(** Adding a zero, of either sign, leaves a value numerically unchanged. *)
Lemma float_add_zero (x z : float) :
  is_nan x = false -> (z =? 0) = true -> (x + z =? x) = true.
Proof.
  intros Nx. rewrite !eqb_spec, add_spec.
  change (Prim2SF 0) with (S754_zero false).
  destruct (Prim2SF z) as [s|s| |s m e] eqn:Ez;
    try (unfold SFeqb; simpl; destruct s; discriminate);
    try (unfold SFeqb; simpl; discriminate).
  intros _. apply B64_sub.SFadd_zero, float_not_nan, Nx.
Qed.

(** The product of two non-negative finite values is non-negative. *)
Lemma float_mul_nonneg_finite (p q : float) :
  is_finite p = true -> is_finite q = true ->
  (0 <=? p) = true -> (0 <=? q) = true -> (0 <=? p * q) = true.
Proof.
  rewrite !float_is_finite_spec, !leb_spec, mul_spec.
  change (Prim2SF 0) with (S754_zero false). unfold SF64mul.
  destruct (Prim2SF p) as [sp|sp| |sp mp ep]; simpl SFis_finite;
    try discriminate;
    destruct (Prim2SF q) as [sq|sq| |sq mq eq]; simpl SFis_finite;
    try discriminate; intros _ _ Hp Hq.
  - destruct sp, sq; reflexivity.
  - destruct sq; [cbv in Hq; discriminate Hq|]. destruct sp; reflexivity.
  - destruct sp; [cbv in Hp; discriminate Hp|]. destruct sq; reflexivity.
  - destruct sp; [cbv in Hp; discriminate Hp|]. destruct sq; [cbv in Hq; discriminate Hq|].
    apply B64.SFhas_sign_nonneg.
    apply (B64.SFmul_sign (S754_finite false mp ep) false false).
    reflexivity.
Qed.

(** The product of a negative finite value and a non-negative finite one
    is negative or a zero. *)
Lemma float_mul_neg_zero (p q : float) :
  is_finite p = true -> is_finite q = true ->
  (p <? 0) = true -> (0 <=? q) = true ->
  (0 <=? p * q) = true -> (p * q =? 0) = true.
Proof.
  rewrite !float_is_finite_spec, !leb_spec, ltb_spec, eqb_spec, mul_spec.
  change (Prim2SF 0) with (S754_zero false). unfold SF64mul.
  destruct (Prim2SF p) as [sp|sp| |sp mp ep]; simpl SFis_finite;
    try discriminate;
    destruct (Prim2SF q) as [sq|sq| |sq mq eq]; simpl SFis_finite;
    try discriminate; intros _ _ Hp Hq.
  - destruct sp; [|cbv in Hp; discriminate Hp]. destruct sq; reflexivity.
  - destruct sp; [|cbv in Hp; discriminate Hp]. destruct sq; [cbv in Hq; discriminate Hq|].
    pose proof (B64.SFmul_sign (S754_finite true mp ep) true false mq eq
                  eq_refl) as H.
    simpl xorb in H.
    destruct (SFmul prec emax (S754_finite true mp ep)
                (S754_finite false mq eq)) as [s|s| |s m e];
      simpl in H; try discriminate; destruct s; try discriminate;
      try reflexivity; intros H'; discriminate H'.
Qed.

(** A positive elapsed time is a non-negative number of hours. *)
Lemma float_div_3600000_nonneg (dt : float) :
  is_finite dt = true -> (dt <=? 0) = false -> (0 <=? dt / 3600000) = true.
Proof.
  rewrite float_is_finite_spec, !leb_spec, div_spec.
  change (Prim2SF 0) with (S754_zero false).
  change (Prim2SF 3600000) with (S754_finite false 7730941132800000 (-31)).
  unfold SF64div.
  destruct (Prim2SF dt) as [s|s| |s m e]; simpl SFis_finite;
    try discriminate; intros _ H.
  destruct s; [cbv in H; discriminate H|].
  apply B64.SFhas_sign_nonneg.
  apply (B64_sub.SFdiv_sign false m e false).
Qed.

(** A quotient of operands of opposite sign is not positive. *)
Lemma float_div_opposite_signs (a b : float) :
  ((a <=? 0) && (0 <? b) || (0 <=? a) && (b <? 0)) = true ->
  is_nan (a / b) = true \/ (a / b <=? 0) = true.
Proof.
  rewrite float_is_nan_spec, !leb_spec, !ltb_spec, div_spec.
  change (Prim2SF 0) with (S754_zero false). unfold SF64div.
  assert (S : forall q, SFhas_sign true q = true ->
                        SFleb q (S754_zero false) = true).
  { intros [s|s| |s m e]; simpl; try discriminate;
      destruct s; try discriminate; reflexivity. }
  destruct (Prim2SF a) as [sa|sa| |sa ma ea];
    destruct (Prim2SF b) as [sb|sb| |sb mb eb];
    try destruct sa; try destruct sb;
    try (intros H; cbv in H; discriminate H);
    intros _;
    try (left; reflexivity);
    try (right; reflexivity).
  - right. apply S. apply (B64_sub.SFdiv_sign true ma ea false mb eb).
  - right. apply S. apply (B64_sub.SFdiv_sign false ma ea true mb eb).
Qed.

(** * The script *)

(** ** Reading the device *)

Lemma isNumber_inv (v : js_value) :
  isNumber v = true -> exists x, v = VNumber x /\ is_finite x = true.
Proof.
  destruct v; simpl; try discriminate.
  intros H. exists x. split; [reflexivity | exact H].
Qed.

Lemma readTotalPowerW_number (em : option em_status) :
  power_absent em = false ->
  exists pw, readTotalPowerW em = VNumber pw /\ is_finite pw = true.
Proof.
  unfold power_absent. intros H. apply negb_false_iff in H.
  apply isNumber_inv, H.
Qed.

Lemma readTotalsWh_fails (st : option emdata_status) (s : state) :
  read_fails st = true -> readTotalsWh st s = (false, s).
Proof.
  unfold read_fails, readTotalsWh.
  destruct st as [d|]; [|reflexivity].
  intros ->. reflexivity.
Qed.

Lemma readTotalsWh_succeeds (st : option emdata_status) (s : state) :
  read_fails st = false ->
  exists d t r,
    st = Some d /\ total_act d = VNumber t /\ total_act_ret d = VNumber r /\
    is_finite t = true /\ is_finite r = true /\
    readTotalsWh st s =
      (true,
       set_current_total_energy_ret_wh (Some r)
         (set_current_total_energy_wh (Some t) s)).
Proof.
  unfold read_fails, readTotalsWh.
  destruct st as [d|]; [|discriminate].
  intros H. rewrite H.
  apply orb_false_elim in H. destruct H as [Ht Hr].
  apply negb_false_iff in Ht, Hr.
  destruct (isNumber_inv _ Ht) as (t & Et & Ft).
  destruct (isNumber_inv _ Hr) as (r & Er & Fr).
  exists d, t, r. rewrite Et, Er. simpl. repeat split; assumption.
Qed.

(** A totals tick is the three steps in sequence on the freshly read
    counters, or nothing. *)
Lemma totalsTick_read_fails (st : option emdata_status) (u : uptimes)
    (s : state) :
  read_fails st = true -> totalsTick st u s = s.
Proof.
  intros H. unfold totalsTick. rewrite (readTotalsWh_fails _ _ H).
  reflexivity.
Qed.

Lemma totalsTick_read_succeeds (st : option emdata_status) (u : uptimes)
    (s : state) :
  read_fails st = false ->
  exists t r,
    is_finite t = true /\ is_finite r = true /\
    totalsTick st u s =
      applyCorrectionIfReady (up_correction u) t r
        (updateTotalsChangeDetection (up_change u) t r
           (startBaselineIfNeeded
              (up_baseline_change u) (up_baseline_correction u) t r
              (set_current_total_energy_ret_wh (Some r)
                 (set_current_total_energy_wh (Some t) s)))).
Proof.
  intros H.
  destruct (readTotalsWh_succeeds st s H) as (d & t & r & _ & _ & _ & Ft & Fr & E).
  exists t, r. split; [exact Ft|]. split; [exact Fr|].
  unfold totalsTick. rewrite E. reflexivity.
Qed.

(** ** The integrator touches only its own variables *)

Ltac frame := unfold outside_integrator; simpl; repeat split.

Lemma outside_integrator_refl (s : state) : outside_integrator s s.
Proof. frame. Qed.

Lemma integratePower_frame (now : float) (em : option em_status)
    (s : state) :
  outside_integrator s (integratePower now em s).
Proof.
  unfold integratePower.
  destruct (last_integration_uptime_ms s) as [last|]; [|frame].
  destruct (now - last <=? 0); [frame|].
  cbv zeta. destruct (negb (isNumber (readTotalPowerW em))); [frame|].
  destruct (readTotalPowerW em); try (frame; fail).
  destruct (0 <=? _); frame.
Qed.

(** ** The scale factor *)

Lemma clampMinMax_range (v : float) :
  is_nan v = false ->
  (0.1 <=? clampMinMax v 0.1 10) = true /\
  (clampMinMax v 0.1 10 <=? 10) = true.
Proof.
  intros Hv. unfold clampMinMax.
  destruct (v <? 0.1) eqn:Hlo; [split; reflexivity|].
  destruct (10 <? v) eqn:Hhi; [split; reflexivity|].
  split; apply float_ltb_false_leb; auto.
Qed.

(** The value given to [clampMinMax] is [1] or the finite quotient. *)
Lemma correction_factor_unclamped (sum_total sum_integrated : float) :
  exists k,
    correction_factor sum_total sum_integrated = clampMinMax k 0.1 10 /\
    (k = 1 \/ k = sum_total / sum_integrated /\ is_finite k = true).
Proof.
  unfold correction_factor.
  destruct (is_finite sum_integrated && _); [|exists 1; auto].
  cbv zeta.
  destruct (is_finite (sum_total / sum_integrated)) eqn:Fq; simpl negb;
    cbv iota.
  - destruct (sum_total / sum_integrated <=? 0.001);
      [exists 1; auto|].
    exists (sum_total / sum_integrated). auto.
  - change (1 <=? 0.001) with false. cbv iota. exists 1. auto.
Qed.

Lemma correction_factor_range (sum_total sum_integrated : float) :
  (0.1 <=? correction_factor sum_total sum_integrated) = true /\
  (correction_factor sum_total sum_integrated <=? 10) = true.
Proof.
  destruct (correction_factor_unclamped sum_total sum_integrated) as
    (k & -> & [->|[_ Fk]]).
  - split; reflexivity.
  - apply clampMinMax_range, float_finite_not_nan, Fk.
Qed.

Lemma correction_factor_positive (sum_total sum_integrated : float) :
  (0 <? correction_factor sum_total sum_integrated) = true /\
  is_finite (correction_factor sum_total sum_integrated) = true.
Proof.
  destruct (correction_factor_range sum_total sum_integrated) as [Hlo Hhi].
  split.
  - apply (float_ltb_leb_trans _ 0.1); [reflexivity|exact Hlo].
  - apply (float_between_finite 0.1 _ 10); auto.
Qed.

(** The amount a correction adds to an accumulator is non-negative. *)
Lemma corrected_delta_nonneg (d sum_total sum_integrated : float) :
  (0 <=? d) = true ->
  (0 <=? d * correction_factor sum_total sum_integrated) = true.
Proof.
  intros Hd.
  destruct (correction_factor_positive sum_total sum_integrated) as [Hp Hf].
  apply float_mul_nonneg; assumption.
Qed.

(** ** Preservation of the invariant *)

Lemma clock_ok_inv (u : float) :
  clock_ok u = true -> is_finite u = true /\ (0 <=? u) = true.
Proof. unfold clock_ok. intros H. apply andb_true_iff in H. exact H. Qed.

(** The energy of one step is a number when the anchor and the new reading
    are uptime readings and the power sample is finite. *)
Lemma step_energy_not_nan (now last pw : float) :
  clock_ok now = true -> clock_ok last = true -> is_finite pw = true ->
  is_nan (pw * ((now - last) / 3600000)) = false.
Proof.
  intros Hn Hl Hp.
  destruct (clock_ok_inv _ Hn) as [Fn Pn].
  destruct (clock_ok_inv _ Hl) as [Fl Pl].
  apply float_mul_finite_not_nan; [exact Hp|].
  apply float_div_3600000_finite.
  apply float_sub_nonneg_finite; assumption.
Qed.

Lemma integratePower_wf (now : float) (em : option em_status) (s : state) :
  wf_state s -> clock_ok now = true -> wf_state (integratePower now em s).
Proof.
  intros [Hn Hr Hd Hdr Ha] Hc. unfold integratePower.
  destruct (last_integration_uptime_ms s) as [last|] eqn:El;
    [|constructor; simpl; assumption].
  destruct (now - last <=? 0); [constructor; try rewrite El; assumption|].
  cbv zeta.
  destruct (negb (isNumber (readTotalPowerW em))) eqn:Hp;
    [constructor; simpl; assumption|].
  apply negb_false_iff in Hp.
  destruct (isNumber_inv _ Hp) as (pw & -> & Fp).
  destruct (0 <=? pw * ((now - last) / 3600000)) eqn:Hw.
  - constructor; simpl; try assumption.
    apply float_add_nonneg; assumption.
  - constructor; simpl; try assumption.
    apply float_add_nonneg; [assumption|].
    apply float_opp_nonneg; [|exact Hw].
    apply step_energy_not_nan; assumption.
Qed.

Lemma readTotalsWh_wf (st : option emdata_status) (s : state) :
  wf_state s -> wf_state (snd (readTotalsWh st s)).
Proof.
  intros [Hn Hr Hd Hdr Ha]. unfold readTotalsWh.
  destruct st as [d|]; [|constructor; assumption].
  destruct (_ || _); constructor; assumption.
Qed.

Lemma startBaselineIfNeeded_wf (up1 up2 t r : float) (s : state) :
  wf_state s -> wf_state (startBaselineIfNeeded up1 up2 t r s).
Proof.
  intros [Hn Hr Hd Hdr Ha]. unfold startBaselineIfNeeded.
  destruct (_ || _); constructor; simpl; try assumption; reflexivity.
Qed.

Lemma updateTotalsChangeDetection_wf (up t r : float) (s : state) :
  wf_state s -> wf_state (updateTotalsChangeDetection up t r s).
Proof.
  intros [Hn Hr Hd Hdr Ha]. unfold updateTotalsChangeDetection.
  destruct (_ || _); [constructor; simpl; assumption|].
  destruct (_ || _); constructor; simpl; assumption.
Qed.

Lemma applyCorrectionIfReady_wf (now t r : float) (s : state) :
  wf_state s -> clock_ok now = true ->
  wf_state (applyCorrectionIfReady now t r s).
Proof.
  intros [Hn Hr Hd Hdr Ha] Hc. unfold applyCorrectionIfReady.
  destruct (negb _); [constructor; assumption|].
  destruct (_ <? 5000); [constructor; assumption|].
  cbv zeta. constructor; simpl; try reflexivity; try assumption.
  - apply (float_ltb_leb_trans _ _ _ Hn).
    apply float_add_nonneg_mono; [assumption|].
    apply corrected_delta_nonneg, Hd.
  - apply (float_ltb_leb_trans _ _ _ Hr).
    apply float_add_nonneg_mono; [assumption|].
    apply corrected_delta_nonneg, Hdr.
Qed.

Lemma totalsTick_wf (st : option emdata_status) (u : uptimes) (s : state) :
  wf_state s -> clock_ok (up_correction u) = true ->
  wf_state (totalsTick st u s).
Proof.
  intros Hs Hc. unfold totalsTick.
  pose proof (readTotalsWh_wf st s Hs) as H1.
  destruct (readTotalsWh st s) as [ok s1]. simpl in H1.
  destruct ok; simpl; [|exact H1].
  destruct (current_total_energy_wh s1); [|exact H1].
  destruct (current_total_energy_ret_wh s1); [|exact H1].
  apply applyCorrectionIfReady_wf; [|exact Hc].
  apply updateTotalsChangeDetection_wf, startBaselineIfNeeded_wf, H1.
Qed.

Lemma step_wf (s : state) (e : tick) :
  wf_state s -> tick_clocks_ok e = true -> wf_state (step s e).
Proof.
  intros Hs Hc. destruct e as [now em|st u]; simpl in *.
  - apply integratePower_wf; assumption.
  - apply totalsTick_wf; [assumption|].
    apply andb_true_iff in Hc. apply Hc.
Qed.

Lemma run_wf (es : list tick) (s : state) :
  wf_state s -> Forall (fun e => tick_clocks_ok e = true) es ->
  wf_state (run es s).
Proof.
  revert s. induction es as [|e es IH]; intros s Hs Hes; [exact Hs|].
  inversion Hes; subst. simpl. apply IH; [|assumption].
  apply step_wf; assumption.
Qed.


(** The value [loadPersisted] gives an accumulator is finite. *)
Lemma loadPersisted_wf (getHandle : string -> option handle) :
  wf_state (loadPersisted getHandle initial_state).
Proof.
  assert (L : forall st : option number_status,
             (neg_infinity <?
                match st with
                | Some x =>
                    if isNumber (value x)
                    then toNumber (number_of (value x)) else 0
                | None => 0
                end) = true).
  { intros [x|]; [|reflexivity].
    destruct (isNumber (value x)) eqn:E; [|reflexivity].
    destruct (isNumber_inv _ E) as (v & -> & Fv). simpl.
    apply float_finite_above_neg_infinity, Fv. }
  unfold loadPersisted. constructor; simpl; try reflexivity; try apply L.
Qed.

Lemma start_wf (getHandle : string -> option handle)
    (st : option emdata_status) (up1 up2 : float) :
  wf_state (start getHandle st up1 up2).
Proof.
  unfold start.
  pose proof (readTotalsWh_wf st _ (loadPersisted_wf getHandle)) as H1.
  destruct (readTotalsWh st (loadPersisted getHandle initial_state))
    as [ok s1]. simpl in H1.
  destruct ok; [|exact H1].
  destruct (current_total_energy_wh s1); [|exact H1].
  destruct (current_total_energy_ret_wh s1); [|exact H1].
  apply startBaselineIfNeeded_wf, H1.
Qed.

(** ** One tick never lowers an accumulator *)

Lemma applyCorrectionIfReady_net (now t r : float) (s : state) :
  wf_state s ->
  (net_metered_energy_wh s <=?
     net_metered_energy_wh (applyCorrectionIfReady now t r s)) = true /\
  (net_metered_energy_ret_wh s <=?
     net_metered_energy_ret_wh (applyCorrectionIfReady now t r s)) = true.
Proof.
  intros [Hn Hr Hd Hdr Ha].
  assert (Rn : (net_metered_energy_wh s <=? net_metered_energy_wh s) = true).
  { apply float_leb_refl. apply float_ltb_leb in Hn.
    apply (float_leb_not_nan _ _ Hn). }
  assert (Rr : (net_metered_energy_ret_wh s <=? net_metered_energy_ret_wh s)
               = true).
  { apply float_leb_refl. apply float_ltb_leb in Hr.
    apply (float_leb_not_nan _ _ Hr). }
  unfold applyCorrectionIfReady.
  destruct (negb _); [split; assumption|].
  destruct (_ <? 5000); [split; assumption|].
  cbv zeta. simpl. split.
  - apply float_add_nonneg_mono; [assumption|].
    apply corrected_delta_nonneg, Hd.
  - apply float_add_nonneg_mono; [assumption|].
    apply corrected_delta_nonneg, Hdr.
Qed.

(** The steps of a totals tick before the correction leave the
    accumulators alone and keep the invariant. *)
Lemma before_correction (up1 up2 up t r : float) (s : state) :
  wf_state s ->
  let s' :=
    updateTotalsChangeDetection up t r
      (startBaselineIfNeeded up1 up2 t r
         (set_current_total_energy_ret_wh (Some r)
            (set_current_total_energy_wh (Some t) s))) in
  wf_state s' /\
  net_metered_energy_wh s' = net_metered_energy_wh s /\
  net_metered_energy_ret_wh s' = net_metered_energy_ret_wh s.
Proof.
  intros Hs s'. split.
  - apply updateTotalsChangeDetection_wf, startBaselineIfNeeded_wf.
    destruct Hs. constructor; assumption.
  - unfold s', updateTotalsChangeDetection, startBaselineIfNeeded.
    repeat match goal with
           | |- context [if ?c then _ else _] => destruct c
           end; split; reflexivity.
Qed.

Lemma wf_leb_refl (s : state) :
  wf_state s ->
  (net_metered_energy_wh s <=? net_metered_energy_wh s) = true /\
  (net_metered_energy_ret_wh s <=? net_metered_energy_ret_wh s) = true.
Proof.
  intros [Hn Hr _ _ _]. split; apply float_leb_refl.
  - apply float_ltb_leb in Hn. apply (float_leb_not_nan _ _ Hn).
  - apply float_ltb_leb in Hr. apply (float_leb_not_nan _ _ Hr).
Qed.

Lemma step_net (s : state) (e : tick) :
  wf_state s ->
  (net_metered_energy_wh s <=? net_metered_energy_wh (step s e)) = true /\
  (net_metered_energy_ret_wh s <=? net_metered_energy_ret_wh (step s e))
  = true.
Proof.
  intros Hs. destruct e as [now em|st u]; simpl.
  - unfold integrationTick.
    destruct (integratePower_frame now em s) as (_ & _ & -> & -> & _).
    apply wf_leb_refl, Hs.
  - destruct (read_fails st) eqn:E.
    + rewrite (totalsTick_read_fails _ _ _ E). apply wf_leb_refl, Hs.
    + destruct (totalsTick_read_succeeds st u s E) as (t & r & _ & _ & ->).
      destruct (before_correction (up_baseline_change u)
                  (up_baseline_correction u) (up_change u) t r s Hs)
        as (W & En & Er).
      cbv zeta in W, En, Er. rewrite <- En at 1. rewrite <- Er at 1.
      apply applyCorrectionIfReady_net, W.
Qed.

Lemma run_net (es : list tick) (s : state) :
  wf_state s -> Forall (fun e => tick_clocks_ok e = true) es ->
  (net_metered_energy_wh s <=? net_metered_energy_wh (run es s)) = true /\
  (net_metered_energy_ret_wh s <=? net_metered_energy_ret_wh (run es s))
  = true.
Proof.
  revert s. induction es as [|e es IH]; intros s Hs Hes.
  - apply wf_leb_refl, Hs.
  - inversion Hes; subst. simpl.
    destruct (step_net s e Hs) as [A1 A2].
    destruct (IH (step s e) (step_wf _ _ Hs H1) H2) as [B1 B2].
    split; eapply float_leb_trans; eassumption.
Qed.

(** ** Windows *)

Lemma integratePower_window (now : float) (em : option em_status)
    (s : state) :
  wf_state s -> clock_ok now = true ->
  window (integratePower now em s) = window s \/
  exists w,
    (0 <=? w) = true /\
    (window (integratePower now em s) =
       (delta_energy_integrate_wh s + w, delta_energy_ret_integrate_wh s) \/
     window (integratePower now em s) =
       (delta_energy_integrate_wh s, delta_energy_ret_integrate_wh s + w)).
Proof.
  intros [Hn Hr Hd Hdr Ha] Hc. unfold integratePower.
  destruct (last_integration_uptime_ms s) as [last|] eqn:El;
    [|left; reflexivity].
  destruct (now - last <=? 0); [left; reflexivity|].
  cbv zeta.
  destruct (negb (isNumber (readTotalPowerW em))) eqn:Hp;
    [left; reflexivity|].
  apply negb_false_iff in Hp.
  destruct (isNumber_inv _ Hp) as (pw & -> & Fp).
  destruct (0 <=? pw * ((now - last) / 3600000)) eqn:Hw.
  - right. exists (pw * ((now - last) / 3600000)).
    split; [exact Hw|]. left. reflexivity.
  - right. exists (- (pw * ((now - last) / 3600000))). split.
    + apply float_opp_nonneg; [|exact Hw].
      apply step_energy_not_nan; assumption.
    + right. reflexivity.
Qed.

Lemma totalsTick_window (st : option emdata_status) (u : uptimes)
    (s : state) :
  window (totalsTick st u s) = window s \/ window (totalsTick st u s) = (0, 0).
Proof.
  destruct (read_fails st) eqn:E.
  - rewrite (totalsTick_read_fails _ _ _ E). left. reflexivity.
  - destruct (totalsTick_read_succeeds st u s E) as (t & r & _ & _ & ->).
    unfold applyCorrectionIfReady, updateTotalsChangeDetection,
      startBaselineIfNeeded, window.
    repeat match goal with
           | |- context [if ?c then _ else _] => destruct c
           end; simpl; auto.
Qed.

(** ** Runs without a successful reference read *)

Lemma outside_integrator_trans (s1 s2 s3 : state) :
  outside_integrator s1 s2 -> outside_integrator s2 s3 ->
  outside_integrator s1 s3.
Proof.
  unfold outside_integrator. intros H12 H23.
  decompose [and] H12. decompose [and] H23.
  repeat split; etransitivity; eassumption.
Qed.

Lemma run_reads_fail (es : list tick) (s : state) :
  Forall (fun e => tick_read_fails e = true) es ->
  outside_integrator s (run es s).
Proof.
  revert s. induction es as [|e es IH]; intros s Hes.
  - apply outside_integrator_refl.
  - inversion Hes; subst. simpl.
    apply (outside_integrator_trans _ (step s e)); [|apply IH; assumption].
    destruct e as [now em|st u]; simpl in *.
    + apply integratePower_frame.
    + rewrite totalsTick_read_fails by assumption.
      apply outside_integrator_refl.
Qed.

(** * Properties of the specification *)

(** ** Accumulators *)

(** C1: over every run of the two timers from a loaded state, with uptime
    readings that are finite and non-negative, neither persisted
    accumulator ever decreases; a correction that fires at a reachable
    state adds [delta_energy_integrate_wh * k] and
    [delta_energy_ret_integrate_wh * k] with [k] in [[0.1, 10]], and both
    amounts are non-negative. *)
Theorem net_metered_energy_never_decreases
    (getHandle : string -> option handle) (st0 : option emdata_status)
    (up1 up2 : float) (es1 es2 : list tick) :
  Forall (fun e => tick_clocks_ok e = true) (es1 ++ es2) ->
  let s1 := run es1 (start getHandle st0 up1 up2) in
  let s2 := run es2 s1 in
  (net_metered_energy_wh s1 <=? net_metered_energy_wh s2) = true /\
  (net_metered_energy_ret_wh s1 <=? net_metered_energy_ret_wh s2) = true /\
  forall now t r,
    let s' := applyCorrectionIfReady now t r s1 in
    s' = s1 \/
    exists k,
      (0.1 <=? k) = true /\ (k <=? 10) = true /\
      net_metered_energy_wh s' =
        net_metered_energy_wh s1 + delta_energy_integrate_wh s1 * k /\
      net_metered_energy_ret_wh s' =
        net_metered_energy_ret_wh s1 + delta_energy_ret_integrate_wh s1 * k /\
      (0 <=? delta_energy_integrate_wh s1 * k) = true /\
      (0 <=? delta_energy_ret_integrate_wh s1 * k) = true.
Proof.
  intros Hes s1 s2.
  apply Forall_app in Hes. destruct Hes as [H1 H2].
  assert (W1 : wf_state s1) by (apply run_wf; [apply start_wf|exact H1]).
  destruct (run_net es2 s1 W1 H2) as [A B].
  split; [exact A|]. split; [exact B|].
  intros now t r s'. subst s'. unfold applyCorrectionIfReady.
  destruct (negb _); [left; reflexivity|].
  destruct (_ <? 5000); [left; reflexivity|].
  right. cbv zeta.
  match goal with
  | |- context [correction_factor ?a ?b] =>
      exists (correction_factor a b);
      destruct (correction_factor_range a b) as [Hlo Hhi]
  end.
  destruct W1 as [_ _ Hd Hdr _].
  repeat split; try assumption; try reflexivity;
    apply corrected_delta_nonneg; assumption.
Qed.

Lemma net_metered_energy_never_decreases_witness :
  Forall (fun e => tick_clocks_ok e = true)
    (hour_in_one_step ++ settled_reference_change) /\
  (net_metered_energy_wh
     (run hour_in_one_step (start no_handles (totals 100 50) 0 0)) <=?
   net_metered_energy_wh
     (run settled_reference_change
        (run hour_in_one_step (start no_handles (totals 100 50) 0 0))))
  = true.
Proof.
  assert (H : Forall (fun e => tick_clocks_ok e = true)
                (hour_in_one_step ++ settled_reference_change))
    by (repeat constructor).
  split; [exact H|].
  exact (proj1 (net_metered_energy_never_decreases no_handles (totals 100 50)
                  0 0 hour_in_one_step settled_reference_change H)).
Defined.

(** C2: the scale factor always lies in [[0.1, 10]]; it is the quotient
    [sum_total / sum_integrated] clamped to that range exactly when
    [|sum_integrated| > 0.001] and the quotient is finite and above
    [0.001], and it is [1] in every other case; a correction that fires
    multiplies both window components by this factor. *)
Theorem correction_factor_spec (sum_total sum_integrated : float) :
  let q := sum_total / sum_integrated in
  let k := correction_factor sum_total sum_integrated in
  (0.1 <=? k) = true /\ (k <=? 10) = true /\
  (if (ENERGY_EPSILON_WH <? abs sum_integrated) && is_finite q
      && (0.001 <? q)
   then k = clampMinMax q 0.1 10
   else k = 1) /\
  forall now t r s,
    totals_changed_since_last_correction s = true ->
    (now - totals_last_change_uptime_ms s <? 5000) = false ->
    let s' := applyCorrectionIfReady now t r s in
    let k' :=
      correction_factor
        (t - toNumber (baseline_total_energy_wh s)
         - (r - toNumber (baseline_total_energy_ret_wh s)))
        (delta_energy_integrate_wh s - delta_energy_ret_integrate_wh s) in
    net_metered_energy_wh s' =
      net_metered_energy_wh s + delta_energy_integrate_wh s * k' /\
    net_metered_energy_ret_wh s' =
      net_metered_energy_ret_wh s + delta_energy_ret_integrate_wh s * k'.
Proof.
  intros q k.
  destruct (correction_factor_range sum_total sum_integrated) as [Hlo Hhi].
  split; [exact Hlo|]. split; [exact Hhi|]. split.
  - subst k. unfold correction_factor. fold q.
    destruct (is_finite sum_integrated) eqn:Fs; simpl andb.
    + destruct (ENERGY_EPSILON_WH <? abs sum_integrated); simpl andb;
        [|reflexivity].
      destruct (is_finite q) eqn:Fq; simpl andb; simpl negb; cbv iota.
      * destruct (q <=? 0.001) eqn:Hq.
        -- rewrite (float_leb_ltb_false _ _ Hq). reflexivity.
        -- rewrite float_leb_false_ltb;
             [reflexivity|apply float_finite_not_nan, Fq|reflexivity|exact Hq].
      * reflexivity.
    + replace ((ENERGY_EPSILON_WH <? abs sum_integrated) && is_finite q
               && (0.001 <? q)) with false; [reflexivity|].
      symmetry. destruct (is_nan sum_integrated) eqn:Ns.
      * rewrite (float_ltb_abs_nan _ _ Ns). reflexivity.
      * destruct (float_div_by_infinity sum_total sum_integrated Ns Fs)
          as [Nq|Zq]; [fold q in Nq|fold q in Zq].
        -- assert (is_finite q = false) as ->.
           { destruct (is_finite q) eqn:Fq; [|reflexivity].
             rewrite (float_finite_not_nan _ Fq) in Nq. discriminate. }
           apply andb_false_iff. left. apply andb_false_r.
        -- rewrite (float_zero_not_above 0.001 q eq_refl Zq).
           apply andb_false_r.
  - intros now t r s Hc Hd s' k'. subst s'. unfold applyCorrectionIfReady.
    rewrite Hc, Hd. simpl. split; reflexivity.
Qed.

(** ** The integrator *)

(** C3, counterexample: with the anchor at 1000 ms and no power sample, a
    tick at 1500 ms changes the state (it moves the anchor). *)
Lemma integratePower_absent_power_changes_state :
  last_integration_uptime_ms (anchored_at 1000) = Some 1000 /\
  power_absent None = true /\
  integratePower 1500 None (anchored_at 1000) <> anchored_at 1000.
Proof.
  split; [reflexivity|]. split; [reflexivity|].
  intros H.
  apply (f_equal (fun s => match last_integration_uptime_ms s with
                           | Some u => u =? 1000
                           | None => true
                           end)) in H.
  vm_compute in H. discriminate H.
Qed.

(** C3, amended: after the first tick, a tick whose elapsed time is [<= 0]
    leaves the whole state unchanged; a tick with positive elapsed time
    and no power sample advances [last_integration_uptime_ms] to the
    current uptime and changes nothing else. *)
Theorem integratePower_without_sample (now : float) (em : option em_status)
    (s : state) (last : float) :
  last_integration_uptime_ms s = Some last ->
  ((now - last <=? 0) = true -> integratePower now em s = s) /\
  ((now - last <=? 0) = false -> power_absent em = true ->
   integratePower now em s = set_last_integration_uptime_ms (Some now) s).
Proof.
  intros El. unfold integratePower. rewrite El. split.
  - intros ->. reflexivity.
  - intros -> Hp. unfold power_absent in Hp. cbv zeta. rewrite Hp.
    reflexivity.
Qed.

Lemma integratePower_without_sample_witness :
  last_integration_uptime_ms (anchored_at 1000) = Some 1000 /\
  ((1500 - 1000 <=? 0) = false -> power_absent None = true ->
   integratePower 1500 None (anchored_at 1000) =
     set_last_integration_uptime_ms (Some 1500) (anchored_at 1000)).
Proof.
  split; [reflexivity|].
  exact (proj2 (integratePower_without_sample 1500 None (anchored_at 1000)
                  1000 eq_refl)).
Defined.

(** C7: at every state reachable from a loaded state, with uptime readings
    that are finite and non-negative, both window components are [>= 0];
    an integration tick leaves the window alone or adds a non-negative
    amount to exactly one component, and a totals tick leaves it alone or
    resets it to [(0, 0)]. *)
Theorem integration_window_nonneg
    (getHandle : string -> option handle) (st0 : option emdata_status)
    (up1 up2 : float) (es : list tick) :
  Forall (fun e => tick_clocks_ok e = true) es ->
  let s := run es (start getHandle st0 up1 up2) in
  (0 <=? delta_energy_integrate_wh s) = true /\
  (0 <=? delta_energy_ret_integrate_wh s) = true /\
  (forall now em,
     clock_ok now = true ->
     window (integrationTick now em s) = window s \/
     exists w,
       (0 <=? w) = true /\
       (window (integrationTick now em s) =
          (delta_energy_integrate_wh s + w, delta_energy_ret_integrate_wh s)
        \/
        window (integrationTick now em s) =
          (delta_energy_integrate_wh s, delta_energy_ret_integrate_wh s + w)))
  /\
  (forall st u,
     window (totalsTick st u s) = window s \/
     window (totalsTick st u s) = (0, 0)).
Proof.
  intros Hes s.
  assert (W : wf_state s) by (apply run_wf; [apply start_wf|exact Hes]).
  split; [apply W|]. split; [apply W|]. split.
  - intros now em Hc. apply integratePower_window; assumption.
  - intros st u. apply totalsTick_window.
Qed.

Lemma integration_window_nonneg_witness :
  Forall (fun e => tick_clocks_ok e = true) hour_in_one_step /\
  (0 <=? delta_energy_integrate_wh
           (run hour_in_one_step (start no_handles (totals 100 50) 0 0)))
  = true.
Proof.
  assert (H : Forall (fun e => tick_clocks_ok e = true) hour_in_one_step)
    by (repeat constructor).
  split; [exact H|].
  exact (proj1 (integration_window_nonneg no_handles (totals 100 50) 0 0
                  hour_in_one_step H)).
Defined.

(** ** The corrector's gate *)

(** C5: [applyCorrectionIfReady] leaves the whole state unchanged when
    [totals_changed_since_last_correction] is false or fewer than 5000 ms
    separate the current uptime from the last recorded change; with
    finite readings, a call that changes the state was made with the flag
    set and at least 5000 ms after that change. *)
Theorem correction_waits_for_settled_change (now t r : float) (s : state) :
  is_finite now = true ->
  is_finite (totals_last_change_uptime_ms s) = true ->
  (totals_changed_since_last_correction s = false \/
   (now - totals_last_change_uptime_ms s <? 5000) = true ->
   applyCorrectionIfReady now t r s = s) /\
  (applyCorrectionIfReady now t r s <> s ->
   totals_changed_since_last_correction s = true /\
   (5000 <=? now - totals_last_change_uptime_ms s) = true).
Proof.
  intros Fn Fl. unfold applyCorrectionIfReady. split.
  - intros [->| ->]; [reflexivity|].
    destruct (negb _); reflexivity.
  - destruct (totals_changed_since_last_correction s); simpl negb; cbv iota;
      [|intros H; exfalso; apply H; reflexivity].
    destruct (now - totals_last_change_uptime_ms s <? 5000) eqn:E;
      [intros H; exfalso; apply H; reflexivity|].
    intros _. split; [reflexivity|].
    apply float_ltb_false_leb; [|reflexivity|exact E].
    apply float_sub_finite_not_nan; assumption.
Qed.

Lemma correction_waits_for_settled_change_witness :
  is_finite 4000 = true /\
  is_finite (totals_last_change_uptime_ms (changed_at 1000)) = true /\
  applyCorrectionIfReady 4000 100 50 (changed_at 1000) = changed_at 1000.
Proof.
  split; [reflexivity|]. split; [reflexivity|].
  apply (proj1 (correction_waits_for_settled_change 4000 100 50
                  (changed_at 1000) eq_refl eq_refl)).
  right. reflexivity.
Defined.

(** ** Failed reads *)

(** C8: a totals tick whose reference read fails returns the state it was
    given; over a run in which every reference read fails, the one at
    startup included, the baseline and the change detector are never
    initialised, no correction is applied and nothing is written to the
    virtual numbers, and both accumulators keep the values loaded at
    startup. *)
Theorem failed_reference_reads_change_nothing :
  (forall st u s, read_fails st = true -> totalsTick st u s = s) /\
  forall getHandle st0 up1 up2 es,
    read_fails st0 = true ->
    Forall (fun e => tick_read_fails e = true) es ->
    let s0 := loadPersisted getHandle initial_state in
    let s := run es (start getHandle st0 up1 up2) in
    baseline_total_energy_wh s = None /\
    baseline_total_energy_ret_wh s = None /\
    last_seen_total_energy_wh s = None /\
    last_seen_total_energy_ret_wh s = None /\
    totals_changed_since_last_correction s = false /\
    last_correction_uptime_ms s = 0 /\
    setValue_calls s = [] /\
    net_metered_energy_wh s = net_metered_energy_wh s0 /\
    net_metered_energy_ret_wh s = net_metered_energy_ret_wh s0.
Proof.
  split; [apply totalsTick_read_fails|].
  intros getHandle st0 up1 up2 es H0 Hes s0 s.
  assert (E : start getHandle st0 up1 up2 = s0).
  { unfold start. fold s0. rewrite (readTotalsWh_fails _ _ H0). reflexivity. }
  subst s. rewrite E.
  destruct (run_reads_fail es s0 Hes) as
    (_ & _ & -> & -> & -> & -> & -> & -> & -> & _ & -> & _ & _ & ->).
  repeat split.
Qed.

(** C9: [readTotalsWh] either stores both counters and returns [true], or
    returns [false] and leaves the state, both cached counters included,
    unchanged; it fails as soon as one of the two values is not a finite
    number, whatever the other is. *)
Theorem readTotalsWh_atomic (st : option emdata_status) (s : state) :
  (exists t r,
     st = Some {| total_act := VNumber t; total_act_ret := VNumber r |} /\
     is_finite t = true /\ is_finite r = true /\
     readTotalsWh st s =
       (true,
        set_current_total_energy_ret_wh (Some r)
          (set_current_total_energy_wh (Some t) s)))
  \/
  (readTotalsWh st s = (false, s) /\
   (st = None \/
    exists d,
      st = Some d /\
      (isNumber (total_act d) = false \/ isNumber (total_act_ret d) = false))).
Proof.
  destruct (read_fails st) eqn:E.
  - right. split; [apply readTotalsWh_fails, E|].
    destruct st as [d|]; [right|left; reflexivity].
    exists d. split; [reflexivity|].
    simpl in E. apply orb_true_iff in E.
    destruct E as [E|E]; apply negb_true_iff in E; auto.
  - left. destruct (readTotalsWh_succeeds st s E) as
      (d & t & r & -> & Et & Er & Ft & Fr & R).
    exists t, r. destruct d as [a b]. simpl in Et, Er. subst a b.
    repeat split; assumption.
Qed.

(** ** Startup *)

(** C10: [loadPersisted] sets an accumulator to [0] when its handle is
    absent, its status is absent or the stored value is not a finite
    number, and to the stored number otherwise; each accumulator depends
    on its own virtual number only. *)
Theorem loadPersisted_defaults (getHandle : string -> option handle)
    (s : state) :
  let s' := loadPersisted getHandle s in
  (cannot_load (getHandle NET_METERED_ENERGY_KEY) = true ->
   net_metered_energy_wh s' = 0) /\
  (cannot_load (getHandle NET_METERED_ENERGY_RET_KEY) = true ->
   net_metered_energy_ret_wh s' = 0) /\
  (forall h x,
     getHandle NET_METERED_ENERGY_KEY = Some h ->
     getStatus h = Some {| value := VNumber x |} -> is_finite x = true ->
     net_metered_energy_wh s' = x) /\
  (forall h x,
     getHandle NET_METERED_ENERGY_RET_KEY = Some h ->
     getStatus h = Some {| value := VNumber x |} -> is_finite x = true ->
     net_metered_energy_ret_wh s' = x).
Proof.
  intros s'. subst s'. unfold loadPersisted, cannot_load. simpl.
  repeat split.
  - destruct (getHandle NET_METERED_ENERGY_KEY) as [h|]; [|reflexivity].
    destruct (getStatus h) as [st|]; [|reflexivity].
    intros H. apply negb_true_iff in H. rewrite H. reflexivity.
  - destruct (getHandle NET_METERED_ENERGY_RET_KEY) as [h|]; [|reflexivity].
    destruct (getStatus h) as [st|]; [|reflexivity].
    intros H. apply negb_true_iff in H. rewrite H. reflexivity.
  - intros h x -> -> Fx. simpl. rewrite Fx. reflexivity.
  - intros h x -> -> Fx. simpl. rewrite Fx. reflexivity.
Qed.

(** ** Integration as a signed sum *)





(** ** The one-hour scenario *)




(** * Further properties of the script *)

(** ** Provisioning *)

Lemma getComponentByKeyFromList_none (l : list component) (k : string) :
  getComponentByKeyFromList l k = None <->
  Forall (fun c => key c <> k) l.
Proof.
  induction l as [|c tl IH]; simpl.
  - split; [constructor|reflexivity].
  - destruct (String.eqb_spec (key c) k) as [E|E].
    + split; [discriminate|]. intros H. inversion H; subst. congruence.
    + rewrite IH. split.
      * intros H. constructor; assumption.
      * intros H. inversion H; assumption.
Qed.

(** X1: [getComponentByKeyFromList] returns the first component of the
    list whose key is the one asked for, and [null] exactly when no
    component has that key. *)
Theorem getComponentByKeyFromList_first_match (l : list component)
    (k : string) :
  match getComponentByKeyFromList l k with
  | Some c =>
      exists l1 l2,
        l = l1 ++ c :: l2 /\ key c = k /\ Forall (fun c' => key c' <> k) l1
  | None => Forall (fun c' => key c' <> k) l
  end.
Proof.
  induction l as [|c tl IH]; simpl; [constructor|].
  destruct (String.eqb_spec (key c) k) as [E|E].
  - exists [], tl. repeat split; [exact E|constructor].
  - destruct (getComponentByKeyFromList tl k) as [c'|].
    + destruct IH as (l1 & l2 & -> & Hk & Hl1).
      exists (c :: l1), l2. repeat split; [exact Hk|].
      constructor; assumption.
    + constructor; assumption.
Qed.

(** A listed component with the expected name is kept. *)
Lemma ensureVirtualNumberComponent_keeps_match (id : float)
    (k expectedName : string) (res : option get_components_result)
    (add_err : option rpc_error) (cb : bool -> list call) (c : component) :
  getComponentByKeyFromList (components_of res) k = Some c ->
  config_name c = VString expectedName ->
  ensureVirtualNumberComponent id k expectedName res add_err cb =
    get_components :: cb true.
Proof.
  intros Hc Hn. unfold ensureVirtualNumberComponent. cbv zeta.
  rewrite Hc, Hn. simpl. rewrite String.eqb_refl. reflexivity.
Qed.

Lemma ensureVirtualGroupComponent_keeps_match (id : float)
    (k expectedName : string) (members : list string)
    (res : option get_components_result) (cb : bool -> list call)
    (c : component) :
  getComponentByKeyFromList (components_of res) k = Some c ->
  config_name c = VString expectedName ->
  ensureVirtualGroupComponent id k expectedName members res cb =
    get_components :: Group_SetConfig id expectedName
    :: Group_Set id members :: cb true.
Proof.
  intros Hc Hn. unfold ensureVirtualGroupComponent. cbv zeta.
  rewrite Hc, Hn. simpl. rewrite String.eqb_refl. reflexivity.
Qed.

(** X2: on a device that lists the two virtual numbers and the group under
    their keys with the expected names, [start] deletes and adds nothing:
    it lists the components three times, configures the group and arms
    the timers, so the persisted numbers are kept. *)
Theorem start_keeps_provisioned_components
    (res1 res2 res3 : option get_components_result)
    (err1 err2 : option rpc_error) (c1 c2 c3 : component) :
  getComponentByKeyFromList (components_of res1) NET_METERED_ENERGY_KEY
  = Some c1 ->
  config_name c1 = VString NET_METERED_ENERGY_NAME ->
  getComponentByKeyFromList (components_of res2) NET_METERED_ENERGY_RET_KEY
  = Some c2 ->
  config_name c2 = VString NET_METERED_ENERGY_RET_NAME ->
  getComponentByKeyFromList (components_of res3) NET_METERING_GROUP_KEY
  = Some c3 ->
  config_name c3 = VString NET_METERING_GROUP_NAME ->
  start_calls res1 err1 res2 err2 res3 =
    [ get_components; get_components; get_components;
      Group_SetConfig NET_METERING_GROUP_ID NET_METERING_GROUP_NAME;
      Group_Set NET_METERING_GROUP_ID
        [NET_METERED_ENERGY_KEY; NET_METERED_ENERGY_RET_KEY] ]
    ++ timers.
Proof.
  intros H1 N1 H2 N2 H3 N3. unfold start_calls.
  rewrite (ensureVirtualNumberComponent_keeps_match _ _ _ _ _ _ c1 H1 N1).
  rewrite (ensureVirtualNumberComponent_keeps_match _ _ _ _ _ _ c2 H2 N2).
  rewrite (ensureVirtualGroupComponent_keeps_match _ _ _ _ _ _ c3 H3 N3).
  reflexivity.
Qed.

Lemma start_keeps_provisioned_components_witness :
  start_calls
    (listing NET_METERED_ENERGY_KEY NET_METERED_ENERGY_NAME) None
    (listing NET_METERED_ENERGY_RET_KEY NET_METERED_ENERGY_RET_NAME) None
    (listing NET_METERING_GROUP_KEY NET_METERING_GROUP_NAME)
  = [ get_components; get_components; get_components;
      Group_SetConfig NET_METERING_GROUP_ID NET_METERING_GROUP_NAME;
      Group_Set NET_METERING_GROUP_ID
        [NET_METERED_ENERGY_KEY; NET_METERED_ENERGY_RET_KEY] ]
    ++ timers.
Proof.
  exact (start_keeps_provisioned_components
           (listing NET_METERED_ENERGY_KEY NET_METERED_ENERGY_NAME)
           (listing NET_METERED_ENERGY_RET_KEY NET_METERED_ENERGY_RET_NAME)
           (listing NET_METERING_GROUP_KEY NET_METERING_GROUP_NAME)
           None None _ _ _ eq_refl eq_refl eq_refl eq_refl eq_refl eq_refl).
Defined.

(** The calls of a provisioning function precede those of its callback,
    and none of them arms a timer. *)
Lemma number_component_shape (id : float)
    (k expectedName : string) (res : option get_components_result)
    (add_err : option rpc_error) :
  exists pre ok,
    (forall cb,
       ensureVirtualNumberComponent id k expectedName res add_err cb =
       pre ++ cb ok) /\
    Forall (fun c => is_timer_set c = false) pre.
Proof.
  unfold ensureVirtualNumberComponent. cbv zeta.
  destruct (getComponentByKeyFromList (components_of res) k) as [c|].
  - destruct (strict_neq_string (config_name c) expectedName).
    + exists [get_components; Virtual_Delete k; add_number id expectedName],
        (add_succeeded add_err).
      split; [intros cb; destruct add_err; reflexivity|repeat constructor].
    + exists [get_components], true.
      split; [intros cb; reflexivity|repeat constructor].
  - exists [get_components; add_number id expectedName],
      (add_succeeded add_err).
    split; [intros cb; destruct add_err; reflexivity|repeat constructor].
Qed.

Lemma group_component_shape (id : float)
    (k expectedName : string) (members : list string)
    (res : option get_components_result) :
  exists pre,
    (forall cb,
       ensureVirtualGroupComponent id k expectedName members res cb =
       pre ++ cb true) /\
    Forall (fun c => is_timer_set c = false) pre /\
    In (Group_Set id members) pre.
Proof.
  unfold ensureVirtualGroupComponent. cbv zeta.
  destruct (getComponentByKeyFromList (components_of res) k) as [c|].
  - destruct (strict_neq_string (config_name c) expectedName).
    + exists [get_components; Virtual_Delete k; add_group id expectedName;
              Group_SetConfig id expectedName; Group_Set id members].
      split; [intros cb; reflexivity|].
      split; [repeat constructor|simpl; auto 6].
    + exists [get_components; Group_SetConfig id expectedName;
              Group_Set id members].
      split; [intros cb; reflexivity|].
      split; [repeat constructor|simpl; auto].
  - exists [get_components; add_group id expectedName;
            Group_SetConfig id expectedName; Group_Set id members].
    split; [intros cb; reflexivity|].
    split; [repeat constructor|simpl; auto 6].
Qed.

(** X3: [ensureVirtualNumberComponent] invokes its callback exactly once,
    after all of its own calls.  Apart from [Shelly.GetComponents] these
    are: nothing, when the listed component has the expected name;
    [Virtual.Add], when no component has the key; [Virtual.Delete] then
    [Virtual.Add], when the listed component has another name.  The
    callback receives [false] exactly when [Virtual.Add] was called and
    answered with an error. *)
Theorem ensureVirtualNumberComponent_protocol (id : float)
    (k expectedName : string) (res : option get_components_result)
    (add_err : option rpc_error) :
  exists pre ok,
    (forall cb,
       ensureVirtualNumberComponent id k expectedName res add_err cb =
       get_components :: pre ++ cb ok) /\
    (pre = [] /\
     (exists c,
        getComponentByKeyFromList (components_of res) k = Some c /\
        strict_neq_string (config_name c) expectedName = false)
     \/
     pre = [add_number id expectedName] /\
     getComponentByKeyFromList (components_of res) k = None
     \/
     pre = [Virtual_Delete k; add_number id expectedName] /\
     (exists c,
        getComponentByKeyFromList (components_of res) k = Some c /\
        strict_neq_string (config_name c) expectedName = true)) /\
    (ok = false <-> pre <> [] /\ add_err <> None).
Proof.
  unfold ensureVirtualNumberComponent. cbv zeta.
  destruct (getComponentByKeyFromList (components_of res) k) as [c|] eqn:Ec.
  - destruct (strict_neq_string (config_name c) expectedName) eqn:En.
    + exists [Virtual_Delete k; add_number id expectedName],
        (add_succeeded add_err).
      split; [intros cb; destruct add_err; reflexivity|].
      split; [right; right; split; [reflexivity|]; exists c; auto|].
      destruct add_err; simpl; split; try discriminate;
        try (intros _; split; discriminate);
        intros [_ H]; congruence.
    + exists [], true.
      split; [intros cb; reflexivity|].
      split; [left; split; [reflexivity|]; exists c; auto|].
      split; [discriminate|]. intros [H _]. congruence.
  - exists [add_number id expectedName], (add_succeeded add_err).
    split; [intros cb; destruct add_err; reflexivity|].
    split; [right; left; auto|].
    destruct add_err; simpl; split; try discriminate;
      try (intros _; split; discriminate);
      intros [_ H]; congruence.
Qed.

(** X4: [ensureVirtualGroupComponent] always ends with [Group.SetConfig]
    and [Group.Set] of the given members, then invokes its callback
    exactly once, with [true]; before them it calls [Virtual.Add] when no
    group has the key, [Virtual.Delete] then [Virtual.Add] when the listed
    group has another name, and nothing otherwise. *)
Theorem ensureVirtualGroupComponent_protocol (id : float)
    (k expectedName : string) (members : list string)
    (res : option get_components_result) :
  exists pre,
    (forall cb,
       ensureVirtualGroupComponent id k expectedName members res cb =
       get_components :: pre
       ++ [Group_SetConfig id expectedName; Group_Set id members]
       ++ cb true) /\
    (pre = [] /\
     (exists c,
        getComponentByKeyFromList (components_of res) k = Some c /\
        strict_neq_string (config_name c) expectedName = false)
     \/
     pre = [add_group id expectedName] /\
     getComponentByKeyFromList (components_of res) k = None
     \/
     pre = [Virtual_Delete k; add_group id expectedName] /\
     (exists c,
        getComponentByKeyFromList (components_of res) k = Some c /\
        strict_neq_string (config_name c) expectedName = true)).
Proof.
  unfold ensureVirtualGroupComponent. cbv zeta.
  destruct (getComponentByKeyFromList (components_of res) k) as [c|] eqn:Ec.
  - destruct (strict_neq_string (config_name c) expectedName) eqn:En.
    + exists [Virtual_Delete k; add_group id expectedName].
      split; [intros cb; reflexivity|].
      right; right; split; [reflexivity|]; exists c; auto.
    + exists []. split; [intros cb; reflexivity|].
      left; split; [reflexivity|]; exists c; auto.
  - exists [add_group id expectedName].
    split; [intros cb; reflexivity|]. right; left; auto.
Qed.

(** X5: whatever the device answers, [start] arms the two timers, as its
    last two calls and nowhere else, after it has set the group's members
    to the keys of the two virtual numbers; a failure to add a virtual
    number does not stop it. *)
Theorem start_always_arms_timers (res1 : option get_components_result)
    (err1 : option rpc_error) (res2 : option get_components_result)
    (err2 : option rpc_error) (res3 : option get_components_result) :
  exists pre,
    start_calls res1 err1 res2 err2 res3 = pre ++ timers /\
    Forall (fun c => is_timer_set c = false) pre /\
    In (Group_Set NET_METERING_GROUP_ID
          [NET_METERED_ENERGY_KEY; NET_METERED_ENERGY_RET_KEY]) pre.
Proof.
  unfold start_calls.
  destruct (number_component_shape NET_METERED_ENERGY_ID
              NET_METERED_ENERGY_KEY NET_METERED_ENERGY_NAME res1 err1)
    as (p1 & ok1 & E1 & H1).
  destruct (number_component_shape NET_METERED_ENERGY_RET_ID
              NET_METERED_ENERGY_RET_KEY NET_METERED_ENERGY_RET_NAME res2 err2)
    as (p2 & ok2 & E2 & H2).
  destruct (group_component_shape NET_METERING_GROUP_ID
              NET_METERING_GROUP_KEY NET_METERING_GROUP_NAME
              [NET_METERED_ENERGY_KEY; NET_METERED_ENERGY_RET_KEY] res3)
    as (p3 & E3 & H3 & I3).
  rewrite E1. cbv beta. rewrite E2. cbv beta. rewrite E3. fold timers.
  exists (p1 ++ p2 ++ p3).
  split; [|split].
  - rewrite <- !app_assoc. reflexivity.
  - repeat (apply Forall_app; split); assumption.
  - apply in_or_app. right. apply in_or_app. right. exact I3.
Qed.

(** ** The integrator *)

(** X6: with finite uptime readings, an integration tick is discarded
    (the whole state stays as it is) exactly when the uptime has not
    advanced beyond the anchor; otherwise the tick moves the anchor to the
    current uptime. *)
Theorem integratePower_discards_iff (now : float) (em : option em_status)
    (s : state) (last : float) :
  last_integration_uptime_ms s = Some last ->
  is_finite now = true -> is_finite last = true ->
  ((now <=? last) = true -> integratePower now em s = s) /\
  ((now <=? last) = false ->
   last_integration_uptime_ms (integratePower now em s) = Some now).
Proof.
  intros El Fn Fl. unfold integratePower.
  rewrite El, (float_sub_le_zero now last Fn Fl). split.
  - intros ->. reflexivity.
  - intros ->. cbv zeta.
    destruct (negb (isNumber (readTotalPowerW em))); [reflexivity|].
    destruct (readTotalPowerW em); try reflexivity.
    destruct (0 <=? _); reflexivity.
Qed.

Lemma integratePower_discards_iff_witness :
  last_integration_uptime_ms (anchored_at 1000) = Some 1000 /\
  integratePower 1000 (power 1000) (anchored_at 1000) = anchored_at 1000.
Proof.
  split; [reflexivity|].
  exact (proj1 (integratePower_discards_iff 1000 (power 1000)
                  (anchored_at 1000) 1000 eq_refl eq_refl eq_refl) eq_refl).
Defined.

(** The energy of a step has the sign of the power sample. *)
Lemma step_energy_sign (now last pw : float) :
  clock_ok now = true -> clock_ok last = true ->
  (now - last <=? 0) = false -> is_finite pw = true ->
  ((0 <=? pw) = true -> (0 <=? pw * ((now - last) / 3600000)) = true) /\
  ((pw <? 0) = true -> (0 <=? pw * ((now - last) / 3600000)) = true ->
   (pw * ((now - last) / 3600000) =? 0) = true).
Proof.
  intros Hn Hl Hdt Fp.
  destruct (clock_ok_inv _ Hn) as [Fn Pn].
  destruct (clock_ok_inv _ Hl) as [Fl Pl].
  assert (Fd : is_finite (now - last) = true)
    by (apply float_sub_nonneg_finite; assumption).
  assert (Fq : is_finite ((now - last) / 3600000) = true)
    by (apply float_div_3600000_finite, Fd).
  assert (Pq : (0 <=? (now - last) / 3600000) = true)
    by (apply float_div_3600000_nonneg; assumption).
  split.
  - intros Hp. apply float_mul_nonneg_finite; assumption.
  - intros Hp. apply float_mul_neg_zero; assumption.
Qed.

Lemma wf_not_nan (s : state) :
  wf_state s ->
  is_nan (net_metered_energy_wh s) = false /\
  is_nan (net_metered_energy_ret_wh s) = false /\
  is_nan (delta_energy_integrate_wh s) = false /\
  is_nan (delta_energy_ret_integrate_wh s) = false.
Proof.
  intros [Hn Hr Hd Hdr _].
  apply float_ltb_leb in Hn, Hr.
  repeat split.
  - apply (float_leb_not_nan _ _ Hn).
  - apply (float_leb_not_nan _ _ Hr).
  - apply (float_leb_not_nan _ _ Hd).
  - apply (float_leb_not_nan _ _ Hdr).
Qed.

(** A power sample that is read is a finite number. *)
Lemma readTotalPowerW_finite (em : option em_status) (pw : float) :
  readTotalPowerW em = VNumber pw -> is_finite pw = true.
Proof.
  unfold readTotalPowerW. destruct em as [e|]; [|discriminate].
  destruct (isNumber (total_act_power e)) eqn:E; simpl; [|discriminate].
  intros H. rewrite H in E. exact E.
Qed.

(** X7: at a reachable state, a tick that integrates routes the energy by
    the sign of the power sample: a sample [>= 0] leaves the export window
    as it is, and a sample [< 0] leaves the import window numerically
    unchanged (a product that underflows to zero is added to it). *)
Theorem integratePower_routes_by_sign (now : float)
    (em : option em_status) (pw last : float) (s : state) :
  wf_state s -> clock_ok now = true ->
  last_integration_uptime_ms s = Some last ->
  (now - last <=? 0) = false ->
  readTotalPowerW em = VNumber pw ->
  ((0 <=? pw) = true ->
   delta_energy_ret_integrate_wh (integratePower now em s)
   = delta_energy_ret_integrate_wh s) /\
  ((pw <? 0) = true ->
   (delta_energy_integrate_wh (integratePower now em s)
    =? delta_energy_integrate_wh s) = true).
Proof.
  intros W Hc El Hdt Ep.
  destruct (wf_not_nan s W) as (_ & _ & Nd & _).
  pose proof (wf_anchor _ W) as Hl. rewrite El in Hl.
  pose proof (readTotalPowerW_finite em pw Ep) as Fp.
  assert (Ha : power_absent em = false)
    by (unfold power_absent; rewrite Ep; simpl; rewrite Fp; reflexivity).
  destruct (step_energy_sign now last pw Hc Hl Hdt Fp) as [Spos Sneg].
  unfold power_absent in Ha.
  unfold integratePower. rewrite El, Hdt. cbv zeta. rewrite Ha, Ep.
  split; intros Hp.
  - rewrite (Spos Hp). reflexivity.
  - destruct (0 <=? pw * ((now - last) / 3600000)) eqn:Hw; simpl.
    + apply float_add_zero; [exact Nd|]. apply Sneg; [exact Hp|reflexivity].
    + apply float_eqb_refl, Nd.
Qed.

Lemma integratePower_routes_by_sign_witness :
  delta_energy_ret_integrate_wh
    (integratePower 1500 (power 230) (anchored_at 1000))
  = delta_energy_ret_integrate_wh (anchored_at 1000).
Proof.
  refine (proj1 (integratePower_routes_by_sign 1500 (power 230) 230 1000
                   (anchored_at 1000) _ eq_refl eq_refl eq_refl eq_refl)
            eq_refl).
  constructor; reflexivity.
Defined.

(** An integration tick discards its reading or moves the anchor to it. *)
Lemma integratePower_anchor (now : float) (em : option em_status)
    (s : state) :
  (integratePower now em s = s /\
   exists last, last_integration_uptime_ms s = Some last /\
                (now - last <=? 0) = true) \/
  last_integration_uptime_ms (integratePower now em s) = Some now.
Proof.
  unfold integratePower.
  destruct (last_integration_uptime_ms s) as [last|] eqn:El;
    [|right; reflexivity].
  destruct (now - last <=? 0) eqn:Hdt.
  - left. split; [reflexivity|]. exists last. split; [reflexivity|exact Hdt].
  - right. cbv zeta.
    destruct (negb (isNumber (readTotalPowerW em))); [reflexivity|].
    destruct (readTotalPowerW em); try reflexivity.
    destruct (0 <=? _); reflexivity.
Qed.

(** X8: two integration ticks with the same finite uptime reading
    integrate once: repeating the tick, whatever power it reads, leaves the
    state as the first one left it. *)
Theorem integrationTick_idempotent (now : float) (em em' : option em_status)
    (s : state) :
  is_finite now = true ->
  integrationTick now em' (integrationTick now em s)
  = integrationTick now em s.
Proof.
  intros Fn. unfold integrationTick.
  destruct (integratePower_anchor now em s) as [[E (last & El & Hdt)]|E].
  - rewrite E. unfold integratePower. rewrite El, Hdt. reflexivity.
  - unfold integratePower at 1.
    rewrite E, (float_sub_diag now Fn). reflexivity.
Qed.

Lemma integrationTick_idempotent_witness :
  integrationTick 1500 (power 230)
    (integrationTick 1500 (power 230) (anchored_at 1000))
  = integrationTick 1500 (power 230) (anchored_at 1000).
Proof.
  exact (integrationTick_idempotent 1500 (power 230) (power 230)
           (anchored_at 1000) eq_refl).
Defined.

(** ** The correction *)

(** X9: a correction that fires on an empty window credits nothing: the
    scale factor is 1, both accumulators keep their numerical value, and
    the baseline still moves to the counters just read, so the change of
    the reference counters over that window is not credited later
    either. *)
Theorem correction_of_empty_window (now t r : float) (s : state) :
  wf_state s ->
  totals_changed_since_last_correction s = true ->
  (now - totals_last_change_uptime_ms s <? 5000) = false ->
  window s = (0, 0) ->
  let s' := applyCorrectionIfReady now t r s in
  correction_factor
    (t - toNumber (baseline_total_energy_wh s)
     - (r - toNumber (baseline_total_energy_ret_wh s)))
    (delta_energy_integrate_wh s - delta_energy_ret_integrate_wh s) = 1 /\
  (net_metered_energy_wh s' =? net_metered_energy_wh s) = true /\
  (net_metered_energy_ret_wh s' =? net_metered_energy_ret_wh s) = true /\
  baseline_total_energy_wh s' = Some t /\
  baseline_total_energy_ret_wh s' = Some r /\
  totals_changed_since_last_correction s' = false.
Proof.
  intros W Hf Hs Hw s'.
  destruct (wf_not_nan s W) as (Nn & Nr & _ & _).
  unfold window in Hw. injection Hw as Ed Er.
  unfold s', applyCorrectionIfReady. rewrite Hf, Hs. cbv zeta. simpl negb.
  cbv iota. rewrite Ed, Er.
  change (correction_factor _ (0 - 0)) with 1%float.
  change (0 * 1)%float with 0%float. simpl.
  repeat split.
  - apply float_add_zero; [exact Nn|reflexivity].
  - apply float_add_zero; [exact Nr|reflexivity].
Qed.

Lemma correction_of_empty_window_witness :
  baseline_total_energy_wh
    (applyCorrectionIfReady 6000 1050 50 (changed_at 1000)) = Some 1050%float.
Proof.
  refine (proj1 (proj2 (proj2 (proj2
            (correction_of_empty_window 6000 1050 50 (changed_at 1000)
               _ eq_refl eq_refl eq_refl))))).
  constructor; reflexivity.
Defined.

(** X10: for bounds [lo <= hi], [clampMinMax] maps every number into
    [[lo, hi]], returns NaN for NaN, and clamping twice is clamping
    once. *)
Theorem clampMinMax_spec (v lo hi : float) :
  (lo <=? hi) = true ->
  (is_nan v = false ->
   (lo <=? clampMinMax v lo hi) = true /\
   (clampMinMax v lo hi <=? hi) = true) /\
  (is_nan v = true -> clampMinMax v lo hi = v) /\
  clampMinMax (clampMinMax v lo hi) lo hi = clampMinMax v lo hi.
Proof.
  intros Hb.
  destruct (float_leb_not_nan _ _ Hb) as [Nlo Nhi].
  pose proof (float_leb_ltb_false _ _ Hb) as Hhl.
  repeat split.
  - unfold clampMinMax.
    destruct (v <? lo) eqn:E1; [apply float_leb_refl, Nlo|].
    destruct (hi <? v) eqn:E2; [exact Hb|].
    apply float_ltb_false_leb; assumption.
  - unfold clampMinMax.
    destruct (v <? lo) eqn:E1; [exact Hb|].
    destruct (hi <? v) eqn:E2; [apply float_leb_refl, Nhi|].
    apply float_ltb_false_leb; assumption.
  - intros Nv. unfold clampMinMax.
    destruct (float_ltb_nan v lo Nv) as [-> _].
    destruct (float_ltb_nan v hi Nv) as [_ ->]. reflexivity.
  - unfold clampMinMax.
    destruct (v <? lo) eqn:E1.
    + rewrite float_ltb_irrefl, Hhl. reflexivity.
    + destruct (hi <? v) eqn:E2.
      * rewrite Hhl, float_ltb_irrefl. reflexivity.
      * rewrite E1, E2. reflexivity.
Qed.

Lemma clampMinMax_spec_witness :
  clampMinMax (clampMinMax 25 0.1 10) 0.1 10 = clampMinMax 25 0.1 10.
Proof.
  exact (proj2 (proj2 (clampMinMax_spec 25 0.1 10 eq_refl))).
Defined.

(** X19: when the net change of the reference counters and the net
    integrated energy have opposite signs, or the reference shows no net
    change, the scale factor is 1: the window is credited as integrated,
    not scaled down. *)
Theorem correction_factor_opposite_signs (sum_total sum_integrated : float) :
  ((sum_total <=? 0) && (0 <? sum_integrated)
   || (0 <=? sum_total) && (sum_integrated <? 0)) = true ->
  correction_factor sum_total sum_integrated = 1.
Proof.
  intros H. apply float_div_opposite_signs in H.
  unfold correction_factor.
  destruct (is_finite sum_integrated && _); [|reflexivity].
  cbv zeta.
  destruct (is_finite (sum_total / sum_integrated)) eqn:Fq; simpl negb;
    cbv iota; [|reflexivity].
  destruct H as [Hn|Hl].
  - rewrite (float_finite_not_nan _ Fq) in Hn. discriminate.
  - rewrite (float_leb_trans _ 0 0.001 Hl eq_refl). reflexivity.
Qed.

Lemma correction_factor_opposite_signs_witness :
  correction_factor (-50) 1000 = 1%float.
Proof.
  exact (correction_factor_opposite_signs (-50) 1000 eq_refl).
Defined.

(** ** Totals ticks *)

Lemma totalsTick_steps (d : emdata_status) (t r : float) (u : uptimes)
    (s : state) :
  total_act d = VNumber t -> total_act_ret d = VNumber r ->
  is_finite t = true -> is_finite r = true ->
  totalsTick (Some d) u s =
    applyCorrectionIfReady (up_correction u) t r
      (updateTotalsChangeDetection (up_change u) t r
         (startBaselineIfNeeded
            (up_baseline_change u) (up_baseline_correction u) t r
            (with_totals t r s))).
Proof.
  intros Et Er Ft Fr. unfold totalsTick, readTotalsWh.
  rewrite Et, Er. simpl. rewrite Ft, Fr. reflexivity.
Qed.

Lemma read_succeeds_inv (st : option emdata_status) :
  read_fails st = false ->
  exists d t r,
    st = Some d /\ total_act d = VNumber t /\ total_act_ret d = VNumber r /\
    is_finite t = true /\ is_finite r = true.
Proof.
  intros H.
  destruct (readTotalsWh_succeeds st initial_state H)
    as (d & t & r & E & Et & Er & Ft & Fr & _).
  exists d, t, r. repeat split; assumption.
Qed.

Lemma with_totals_same (t r : float) (s : state) :
  current_total_energy_wh s = Some t ->
  current_total_energy_ret_wh s = Some r ->
  with_totals t r s = s.
Proof.
  destruct s. simpl. intros -> ->. reflexivity.
Qed.

Lemma startBaselineIfNeeded_ready (up1 up2 t r : float) (s : state) :
  baseline_ready s = true -> startBaselineIfNeeded up1 up2 t r s = s.
Proof.
  unfold baseline_ready, startBaselineIfNeeded. intros H.
  apply andb_true_iff in H. destruct H as [-> ->]. reflexivity.
Qed.

Lemma updateTotalsChangeDetection_same (up t r : float) (s : state) :
  last_seen_is t r s -> updateTotalsChangeDetection up t r s = s.
Proof.
  intros (a & b & Ea & Eb & Fa & Fb & Ta & Rb).
  unfold updateTotalsChangeDetection. rewrite Ea, Eb. simpl.
  rewrite Fa, Fb, Ta, Rb. reflexivity.
Qed.

Lemma last_seen_is_refl (t r : float) (s : state) :
  is_finite t = true -> is_finite r = true ->
  last_seen_total_energy_wh s = Some t ->
  last_seen_total_energy_ret_wh s = Some r ->
  last_seen_is t r s.
Proof.
  intros Ft Fr Et Er. exists t, r.
  repeat split; try assumption;
    apply float_eqb_refl, float_finite_not_nan; assumption.
Qed.

(** After the first two steps of a totals tick the baseline is
    initialised and the change detector holds the counters read. *)
Lemma before_correction_ready (up1 up2 up t r : float) (s : state) :
  is_finite t = true -> is_finite r = true ->
  let s' :=
    updateTotalsChangeDetection up t r
      (startBaselineIfNeeded up1 up2 t r (with_totals t r s)) in
  baseline_ready s' = true /\ last_seen_is t r s' /\
  current_total_energy_wh s' = Some t /\
  current_total_energy_ret_wh s' = Some r.
Proof.
  intros Ft Fr.
  pose proof (float_eqb_refl t (float_finite_not_nan _ Ft)) as Tt.
  pose proof (float_eqb_refl r (float_finite_not_nan _ Fr)) as Rr.
  unfold startBaselineIfNeeded, baseline_ready.
  destruct (negb (isNumber (js (baseline_total_energy_wh (with_totals t r s))))
            || negb (isNumber
                       (js (baseline_total_energy_ret_wh (with_totals t r s)))))
    eqn:Hb.
  - unfold updateTotalsChangeDetection. simpl. rewrite Ft, Fr, Tt, Rr. simpl.
    rewrite Ft, Fr. repeat split.
    apply last_seen_is_refl; auto.
  - apply orb_false_elim in Hb. destruct Hb as [B1 B2].
    apply negb_false_iff in B1, B2.
    unfold updateTotalsChangeDetection.
    destruct (negb (isNumber (js (last_seen_total_energy_wh (with_totals t r s))))
              || negb (isNumber
                         (js (last_seen_total_energy_ret_wh
                                (with_totals t r s))))) eqn:Hl.
    + simpl. simpl in B1, B2. rewrite B1, B2. repeat split.
      apply last_seen_is_refl; auto.
    + apply orb_false_elim in Hl. destruct Hl as [L1 L2].
      apply negb_false_iff in L1, L2.
      destruct (strict_neq t (last_seen_total_energy_wh (with_totals t r s))
                || strict_neq r
                     (last_seen_total_energy_ret_wh (with_totals t r s)))
        eqn:Hn.
      * simpl. simpl in B1, B2. rewrite B1, B2. repeat split.
        apply last_seen_is_refl; auto.
      * rewrite B1, B2. repeat split.
        apply orb_false_elim in Hn. destruct Hn as [N1 N2].
        simpl in L1, L2, N1, N2 |- *.
        destruct (last_seen_total_energy_wh s) as [a|] eqn:Ea;
          [|discriminate].
        destruct (last_seen_total_energy_ret_wh s) as [b|] eqn:Eb;
          [|discriminate].
        simpl in *. apply negb_false_iff in N1, N2.
        exists a, b. repeat split; assumption.
Qed.

Lemma applyCorrectionIfReady_settles (now t r : float) (s : state) :
  is_finite t = true -> is_finite r = true -> baseline_ready s = true ->
  let s' := applyCorrectionIfReady now t r s in
  baseline_ready s' = true /\
  last_seen_total_energy_wh s' = last_seen_total_energy_wh s /\
  last_seen_total_energy_ret_wh s' = last_seen_total_energy_ret_wh s /\
  current_total_energy_wh s' = current_total_energy_wh s /\
  current_total_energy_ret_wh s' = current_total_energy_ret_wh s /\
  applyCorrectionIfReady now t r s' = s'.
Proof.
  intros Ft Fr Hb. unfold applyCorrectionIfReady.
  destruct (totals_changed_since_last_correction s) eqn:Hf; simpl negb;
    cbv iota.
  - destruct (now - totals_last_change_uptime_ms s <? 5000) eqn:Hs.
    + rewrite Hf, Hs. simpl. repeat split. exact Hb.
    + cbv zeta. unfold baseline_ready. simpl. rewrite Ft, Fr.
      repeat split.
  - rewrite Hf. simpl. repeat split. exact Hb.
Qed.

Lemma last_seen_is_same (t r : float) (s s' : state) :
  last_seen_total_energy_wh s' = last_seen_total_energy_wh s ->
  last_seen_total_energy_ret_wh s' = last_seen_total_energy_ret_wh s ->
  last_seen_is t r s -> last_seen_is t r s'.
Proof.
  intros E1 E2 (a & b & H). exists a, b. rewrite E1, E2. exact H.
Qed.

(** X11: a totals tick repeated with the same answers of the device
    changes nothing: a change of the reference counters is detected once
    and corrected once. *)
Theorem totalsTick_idempotent (st : option emdata_status) (u : uptimes)
    (s : state) :
  totalsTick st u (totalsTick st u s) = totalsTick st u s.
Proof.
  destruct (read_fails st) eqn:E.
  - rewrite !(totalsTick_read_fails _ _ _ E). reflexivity.
  - destruct (read_succeeds_inv st E) as (d & t & r & -> & Et & Er & Ft & Fr).
    rewrite (totalsTick_steps d t r u s Et Er Ft Fr).
    destruct (before_correction_ready (up_baseline_change u)
                (up_baseline_correction u) (up_change u) t r s Ft Fr)
      as (Hb & Hl & C1 & C2).
    cbv zeta in Hb, Hl, C1, C2.
    set (s2 := updateTotalsChangeDetection (up_change u) t r
                 (startBaselineIfNeeded (up_baseline_change u)
                    (up_baseline_correction u) t r (with_totals t r s)))
      in *.
    destruct (applyCorrectionIfReady_settles (up_correction u) t r s2
                Ft Fr Hb) as (Hb' & L1 & L2 & C1' & C2' & A).
    cbv zeta in Hb', L1, L2, C1', C2', A.
    set (s3 := applyCorrectionIfReady (up_correction u) t r s2) in *.
    rewrite (totalsTick_steps d t r u s3 Et Er Ft Fr).
    rewrite with_totals_same by congruence.
    rewrite startBaselineIfNeeded_ready by exact Hb'.
    rewrite updateTotalsChangeDetection_same
      by (apply (last_seen_is_same t r s2); assumption).
    exact A.
Qed.

(** A quiet reference stays quiet: a totals tick that reads the counters
    the change detector holds only refreshes the cached counters. *)
Lemma totalsTick_quiet (d : emdata_status) (t r : float) (u : uptimes)
    (s : state) :
  total_act d = VNumber t -> total_act_ret d = VNumber r ->
  is_finite t = true -> is_finite r = true ->
  reference_quiet t r s ->
  totalsTick (Some d) u s = with_totals t r s.
Proof.
  intros Et Er Ft Fr (Hb & Hl & Hf).
  rewrite (totalsTick_steps d t r u s Et Er Ft Fr).
  rewrite startBaselineIfNeeded_ready by exact Hb.
  rewrite updateTotalsChangeDetection_same
    by (apply (last_seen_is_same t r s); [reflexivity|reflexivity|exact Hl]).
  unfold applyCorrectionIfReady. simpl. rewrite Hf. reflexivity.
Qed.

Lemma quiet_frame_refl (s : state) : quiet_frame s s.
Proof. unfold quiet_frame. repeat split. Qed.

Lemma quiet_frame_trans (s1 s2 s3 : state) :
  quiet_frame s1 s2 -> quiet_frame s2 s3 -> quiet_frame s1 s3.
Proof.
  unfold quiet_frame. intros H12 H23.
  decompose [and] H12. decompose [and] H23.
  repeat split; etransitivity; eassumption.
Qed.

Lemma step_quiet (d : emdata_status) (t r : float) (s : state) (e : tick) :
  total_act d = VNumber t -> total_act_ret d = VNumber r ->
  is_finite t = true -> is_finite r = true ->
  reference_quiet t r s -> tick_rereads (Some d) e ->
  reference_quiet t r (step s e) /\ quiet_frame s (step s e).
Proof.
  intros Et Er Ft Fr Q He. destruct e as [now em|st u]; simpl in *.
  - unfold integrationTick.
    destruct (integratePower_frame now em s)
      as (_ & _ & En & Enr & Eb & Ebr & El & Elr & Ef & _ & Ec & _ & _ & Es).
    destruct Q as (Hb & Hl & Hf). split.
    + split; [|split].
      * unfold baseline_ready. rewrite Eb, Ebr. exact Hb.
      * apply (last_seen_is_same t r s); assumption.
      * rewrite Ef. exact Hf.
    + unfold quiet_frame. repeat split; assumption.
  - destruct He as [Hfail| ->].
    + rewrite (totalsTick_read_fails _ _ _ Hfail).
      split; [exact Q|apply quiet_frame_refl].
    + rewrite (totalsTick_quiet d t r u s Et Er Ft Fr Q).
      split; [|unfold quiet_frame; repeat split].
      destruct Q as (Hb & Hl & Hf). split; [exact Hb|].
      split; [|exact Hf].
      apply (last_seen_is_same t r s); [reflexivity|reflexivity|exact Hl].
Qed.

Lemma run_quiet (d : emdata_status) (t r : float) (es : list tick)
    (s : state) :
  total_act d = VNumber t -> total_act_ret d = VNumber r ->
  is_finite t = true -> is_finite r = true ->
  reference_quiet t r s -> Forall (tick_rereads (Some d)) es ->
  reference_quiet t r (run es s) /\ quiet_frame s (run es s).
Proof.
  intros Et Er Ft Fr. revert s.
  induction es as [|e es IH]; intros s Q Hes.
  - split; [exact Q|apply quiet_frame_refl].
  - inversion Hes; subst. simpl.
    destruct (step_quiet d t r s e Et Er Ft Fr Q H1) as [Q1 F1].
    destruct (IH (step s e) Q1 H2) as [Q2 F2].
    split; [exact Q2|]. apply (quiet_frame_trans _ (step s e)); assumption.
Qed.

Lemma rereads_failing (es : list tick) (st0 : option emdata_status) :
  read_fails st0 = true -> Forall (tick_rereads st0) es ->
  Forall (fun e => tick_read_fails e = true) es.
Proof.
  intros Hf. apply Forall_impl. intros [now em|st u]; simpl.
  - reflexivity.
  - intros [H| ->]; assumption.
Qed.

(** X12: if every reference read after startup fails or returns what the
    read at startup returned, no correction is ever applied: over the whole
    run both accumulators keep the values loaded at startup and nothing is
    written to the virtual numbers, however much energy the integrator has
    collected. *)
Theorem constant_reference_never_corrects
    (getHandle : string -> option handle) (st0 : option emdata_status)
    (up1 up2 : float) (es : list tick) :
  Forall (tick_rereads st0) es ->
  let s0 := loadPersisted getHandle initial_state in
  let s := run es (start getHandle st0 up1 up2) in
  net_metered_energy_wh s = net_metered_energy_wh s0 /\
  net_metered_energy_ret_wh s = net_metered_energy_ret_wh s0 /\
  setValue_calls s = [] /\
  totals_changed_since_last_correction s = false.
Proof.
  intros Hes s0 s.
  destruct (read_fails st0) eqn:E.
  - pose proof (run_reads_fail es (start getHandle st0 up1 up2)
                  (rereads_failing es st0 E Hes)) as F.
    fold s in F.
    destruct F as (_ & _ & En & Enr & _ & _ & _ & _ & Ef & _ & _ & _ & _ & Es).
    rewrite En, Enr, Es, Ef.
    unfold start. rewrite (readTotalsWh_fails _ _ E). repeat split.
  - destruct (read_succeeds_inv st0 E) as (d & t & r & -> & Et & Er & Ft & Fr).
    assert (S0 : start getHandle (Some d) up1 up2
                 = startBaselineIfNeeded up1 up2 t r
                     (with_totals t r s0)).
    { unfold start, readTotalsWh. rewrite Et, Er. simpl. rewrite Ft, Fr.
      reflexivity. }
    assert (Q : reference_quiet t r (start getHandle (Some d) up1 up2)).
    { rewrite S0. unfold startBaselineIfNeeded. simpl.
      split; [|split].
      - unfold baseline_ready. simpl. rewrite Ft, Fr. reflexivity.
      - apply last_seen_is_refl; auto.
      - reflexivity. }
    destruct (run_quiet d t r es _ Et Er Ft Fr Q Hes)
      as [(_ & _ & Hf) (En & Enr & _ & _ & _ & Es)].
    fold s in Hf, En, Enr, Es.
    rewrite En, Enr, Es, Hf, S0. repeat split.
Qed.

Lemma constant_reference_never_corrects_witness :
  net_metered_energy_wh
    (run (hour_in_one_step ++
          [TotalsTick (totals 100 50) (at_uptime 3605000)])
       (start no_handles (totals 100 50) 0 0))
  = net_metered_energy_wh (loadPersisted no_handles initial_state).
Proof.
  refine (proj1 (constant_reference_never_corrects no_handles (totals 100 50)
                   0 0 (hour_in_one_step ++
                        [TotalsTick (totals 100 50) (at_uptime 3605000)]) _)).
  repeat (apply Forall_cons; [simpl; auto|]). apply Forall_nil.
Defined.




(** X14: a change of the reference counters is not corrected by the tick
    that detects it when that tick's uptime readings are less than 5000 ms
    apart: the tick records the counters, sets the change flag and
    restarts the settling interval, and leaves accumulators, window and
    baseline alone, also when an earlier change was already pending. *)
Theorem change_is_not_corrected_in_its_tick (t r a b : float) (u : uptimes)
    (s : state) :
  is_finite t = true -> is_finite r = true ->
  baseline_ready s = true ->
  last_seen_total_energy_wh s = Some a -> is_finite a = true ->
  last_seen_total_energy_ret_wh s = Some b -> is_finite b = true ->
  (t =? a) = false \/ (r =? b) = false ->
  (up_correction u - up_change u <? 5000) = true ->
  totalsTick (totals t r) u s =
    set_last_seen_total_energy_ret_wh (Some r)
      (set_last_seen_total_energy_wh (Some t)
         (set_totals_last_change_uptime_ms (up_change u)
            (set_totals_changed_since_last_correction true
               (with_totals t r s)))).
Proof.
  intros Ft Fr Hb Ea Fa Eb Fb Hne Hs.
  unfold totals.
  rewrite (totalsTick_steps
             {| total_act := VNumber t; total_act_ret := VNumber r |}
             t r u s eq_refl eq_refl Ft Fr).
  rewrite startBaselineIfNeeded_ready by exact Hb.
  assert (C : strict_neq t (last_seen_total_energy_wh (with_totals t r s))
              || strict_neq r
                   (last_seen_total_energy_ret_wh (with_totals t r s))
              = true).
  { simpl. rewrite Ea, Eb. simpl.
    destruct Hne as [-> | ->]; [reflexivity|apply orb_true_r]. }
  unfold updateTotalsChangeDetection. rewrite C.
  simpl. rewrite Ea, Eb. simpl. rewrite Fa, Fb. simpl.
  unfold applyCorrectionIfReady. simpl. rewrite Hs. reflexivity.
Qed.

Lemma change_is_not_corrected_in_its_tick_witness :
  totalsTick (totals 1050 50) (at_uptime 3600000)
    (run hour_in_one_step (start no_handles (totals 100 50) 0 0))
  = set_last_seen_total_energy_ret_wh (Some 50%float)
      (set_last_seen_total_energy_wh (Some 1050%float)
         (set_totals_last_change_uptime_ms 3600000
            (set_totals_changed_since_last_correction true
               (with_totals 1050 50
                  (run hour_in_one_step
                     (start no_handles (totals 100 50) 0 0)))))).
Proof.
  exact (change_is_not_corrected_in_its_tick 1050 50 100 50
           (at_uptime 3600000)
           (run hour_in_one_step (start no_handles (totals 100 50) 0 0))
           eq_refl eq_refl eq_refl eq_refl eq_refl eq_refl eq_refl
           (or_introl eq_refl) eq_refl).
Defined.

Lemma step_baseline_ready (s : state) (e : tick) :
  baseline_ready s = true -> baseline_ready (step s e) = true.
Proof.
  intros Hb. destruct e as [now em|st u]; simpl.
  - unfold integrationTick, baseline_ready.
    destruct (integratePower_frame now em s)
      as (_ & _ & _ & _ & -> & -> & _). exact Hb.
  - destruct (read_fails st) eqn:E.
    + rewrite (totalsTick_read_fails _ _ _ E). exact Hb.
    + destruct (read_succeeds_inv st E)
        as (d & t & r & -> & Et & Er & Ft & Fr).
      rewrite (totalsTick_steps d t r u s Et Er Ft Fr).
      destruct (before_correction_ready (up_baseline_change u)
                  (up_baseline_correction u) (up_change u) t r s Ft Fr)
        as (Hb2 & _).
      apply applyCorrectionIfReady_settles; assumption.
Qed.

(** X15: the baseline is initialised once: from a state whose baseline
    holds two finite numbers, every run of the timers reaches a state
    whose baseline does, and there [startBaselineIfNeeded] does nothing,
    so that afterwards the window is emptied by corrections only. *)
Theorem baseline_initialised_once (es : list tick) (s : state) :
  baseline_ready s = true ->
  baseline_ready (run es s) = true /\
  forall up1 up2 t r,
    startBaselineIfNeeded up1 up2 t r (run es s) = run es s.
Proof.
  intros Hb.
  assert (R : baseline_ready (run es s) = true).
  { revert s Hb. induction es as [|e es IH]; intros s Hb; [exact Hb|].
    simpl. apply IH, step_baseline_ready, Hb. }
  split; [exact R|]. intros up1 up2 t r.
  apply startBaselineIfNeeded_ready, R.
Qed.

Lemma baseline_initialised_once_witness :
  baseline_ready
    (run (hour_in_one_step ++ settled_reference_change)
       (start no_handles (totals 100 50) 0 0)) = true.
Proof.
  exact (proj1 (baseline_initialised_once
                  (hour_in_one_step ++ settled_reference_change)
                  (start no_handles (totals 100 50) 0 0) eq_refl)).
Defined.

(** X20: a pending change that has settled is corrected by the next totals
    tick that reads the counters the change detector holds: the tick is
    the correction step alone, which empties the window, moves the
    baseline to the counters, clears the change flag, moves the
    integrator's anchor to the uptime of the correction, and writes the
    new accumulators, the import one first. *)
Theorem settled_change_is_corrected (t r : float) (u : uptimes) (s : state) :
  is_finite t = true -> is_finite r = true ->
  baseline_ready s = true -> last_seen_is t r s ->
  totals_changed_since_last_correction s = true ->
  (up_correction u - totals_last_change_uptime_ms s <? 5000) = false ->
  let s' := totalsTick (totals t r) u s in
  s' = applyCorrectionIfReady (up_correction u) t r (with_totals t r s) /\
  window s' = (0, 0) /\
  baseline_total_energy_wh s' = Some t /\
  baseline_total_energy_ret_wh s' = Some r /\
  totals_changed_since_last_correction s' = false /\
  last_integration_uptime_ms s' = Some (up_correction u) /\
  setValue_calls s' =
    setValue (net_metered_energy_ret_handle s) (net_metered_energy_ret_wh s')
      (setValue (net_metered_energy_handle s) (net_metered_energy_wh s')
         (setValue_calls s)).
Proof.
  intros Ft Fr Hb Hl Hf Hs s'. unfold s', totals.
  rewrite (totalsTick_steps
             {| total_act := VNumber t; total_act_ret := VNumber r |}
             t r u s eq_refl eq_refl Ft Fr).
  rewrite startBaselineIfNeeded_ready by exact Hb.
  rewrite updateTotalsChangeDetection_same
    by (apply (last_seen_is_same t r s); [reflexivity|reflexivity|exact Hl]).
  split; [reflexivity|].
  unfold applyCorrectionIfReady. simpl. rewrite Hf, Hs. simpl.
  repeat split.
Qed.

Lemma settled_reference_change_pending :
  let s :=
    totalsTick (totals 1050 50) (at_uptime 3600000)
      (run hour_in_one_step (start no_handles (totals 100 50) 0 0)) in
  last_seen_is 1050 50 s.
Proof. exists 1050%float, 50%float. repeat split. Defined.

Lemma settled_change_is_corrected_witness :
  window
    (totalsTick (totals 1050 50) (at_uptime 3605000)
       (totalsTick (totals 1050 50) (at_uptime 3600000)
          (run hour_in_one_step (start no_handles (totals 100 50) 0 0))))
  = (0, 0).
Proof.
  exact (proj1 (proj2
           (settled_change_is_corrected 1050 50 (at_uptime 3605000)
              (totalsTick (totals 1050 50) (at_uptime 3600000)
                 (run hour_in_one_step
                    (start no_handles (totals 100 50) 0 0)))
              eq_refl eq_refl eq_refl settled_reference_change_pending
              eq_refl eq_refl))).
Defined.

(** ** Persistence *)

(** The steps of a totals tick before the correction write nothing. *)
Lemma before_correction_frame (up1 up2 up t r : float) (s : state) :
  let s' :=
    updateTotalsChangeDetection up t r
      (startBaselineIfNeeded up1 up2 t r (with_totals t r s)) in
  net_metered_energy_handle s' = net_metered_energy_handle s /\
  net_metered_energy_ret_handle s' = net_metered_energy_ret_handle s /\
  net_metered_energy_wh s' = net_metered_energy_wh s /\
  net_metered_energy_ret_wh s' = net_metered_energy_ret_wh s /\
  setValue_calls s' = setValue_calls s.
Proof.
  unfold updateTotalsChangeDetection, startBaselineIfNeeded.
  repeat match goal with
         | |- context [if ?c then _ else _] => destruct c
         end; repeat split.
Qed.

Lemma applyCorrectionIfReady_sync (getHandle : string -> option handle)
    (now t r : float) (s : state) :
  handles_by_key getHandle ->
  persisted_in_sync getHandle s ->
  persisted_in_sync getHandle (applyCorrectionIfReady now t r s).
Proof.
  intros Hk (H1 & H2 & S1 & S2). unfold applyCorrectionIfReady.
  destruct (negb _); [repeat split; assumption|].
  destruct (_ <? 5000); [repeat split; assumption|].
  cbv zeta. unfold persisted_in_sync. simpl. rewrite H1, H2.
  split; [reflexivity|]. split; [reflexivity|].
  unfold written_in_sync in *.
  destruct (getHandle NET_METERED_ENERGY_KEY) as [hd1|] eqn:G1;
    destruct (getHandle NET_METERED_ENERGY_RET_KEY) as [hd2|] eqn:G2;
    simpl;
    try rewrite (Hk _ _ G1); try rewrite (Hk _ _ G2); simpl.
  - split; split; [discriminate|reflexivity|discriminate|reflexivity].
  - split; [split; [discriminate|reflexivity]|].
    destruct (last_written NET_METERED_ENERGY_RET_KEY (setValue_calls s));
      [|exact I].
    destruct S2 as [C _]. exfalso. apply C. reflexivity.
  - split; [|split; [discriminate|reflexivity]].
    destruct (last_written NET_METERED_ENERGY_KEY (setValue_calls s));
      [|exact I].
    destruct S1 as [C _]. exfalso. apply C. reflexivity.
  - split.
    + destruct (last_written NET_METERED_ENERGY_KEY (setValue_calls s));
        [|exact I].
      destruct S1 as [C _]. exfalso. apply C. reflexivity.
    + destruct (last_written NET_METERED_ENERGY_RET_KEY (setValue_calls s));
        [|exact I].
      destruct S2 as [C _]. exfalso. apply C. reflexivity.
Qed.

Lemma step_sync (getHandle : string -> option handle) (s : state)
    (e : tick) :
  handles_by_key getHandle ->
  persisted_in_sync getHandle s -> persisted_in_sync getHandle (step s e).
Proof.
  intros Hk P. destruct e as [now em|st u]; simpl.
  - unfold integrationTick.
    destruct (integratePower_frame now em s)
      as (E1 & E2 & En & Enr & _ & _ & _ & _ & _ & _ & _ & _ & _ & Es).
    unfold persisted_in_sync. rewrite E1, E2, En, Enr, Es. exact P.
  - destruct (read_fails st) eqn:E.
    + rewrite (totalsTick_read_fails _ _ _ E). exact P.
    + destruct (read_succeeds_inv st E)
        as (d & t & r & -> & Et & Er & Ft & Fr).
      rewrite (totalsTick_steps d t r u s Et Er Ft Fr).
      apply applyCorrectionIfReady_sync; [exact Hk|].
      destruct (before_correction_frame (up_baseline_change u)
                  (up_baseline_correction u) (up_change u) t r s)
        as (E1 & E2 & En & Enr & Es).
      unfold persisted_in_sync. rewrite E1, E2, En, Enr, Es. exact P.
Qed.

Lemma start_frame (getHandle : string -> option handle)
    (st : option emdata_status) (up1 up2 : float) :
  let s := start getHandle st up1 up2 in
  net_metered_energy_handle s = getHandle NET_METERED_ENERGY_KEY /\
  net_metered_energy_ret_handle s = getHandle NET_METERED_ENERGY_RET_KEY /\
  setValue_calls s = [].
Proof.
  unfold start, readTotalsWh.
  destruct st as [d|]; [|repeat split].
  destruct (_ || _); [repeat split|]. simpl.
  destruct (number_of (total_act d)); [|repeat split].
  destruct (number_of (total_act_ret d)); [|repeat split].
  unfold startBaselineIfNeeded. destruct (_ || _); repeat split.
Qed.

Lemma run_sync (getHandle : string -> option handle)
    (st0 : option emdata_status) (up1 up2 : float) (es : list tick) :
  handles_by_key getHandle ->
  persisted_in_sync getHandle (run es (start getHandle st0 up1 up2)).
Proof.
  intros Hk.
  assert (P0 : persisted_in_sync getHandle (start getHandle st0 up1 up2)).
  { destruct (start_frame getHandle st0 up1 up2) as (E1 & E2 & Es).
    unfold persisted_in_sync, written_in_sync. rewrite E1, E2, Es.
    repeat split. }
  revert P0. generalize (start getHandle st0 up1 up2).
  induction es as [|e es IH]; intros s P; [exact P|].
  simpl. apply IH, step_sync; assumption.
Qed.

(** X16: at every state reachable from startup, a virtual number that has
    been written holds the accumulator it persists: the value written
    last to "number:200" is [net_metered_energy_wh], the one written last
    to "number:201" is [net_metered_energy_ret_wh], and nothing is written
    under a key whose handle is missing. *)
Theorem virtual_numbers_hold_accumulators
    (getHandle : string -> option handle) (st0 : option emdata_status)
    (up1 up2 : float) (es : list tick) :
  handles_by_key getHandle ->
  let s := run es (start getHandle st0 up1 up2) in
  written_in_sync NET_METERED_ENERGY_KEY
    (getHandle NET_METERED_ENERGY_KEY)
    (net_metered_energy_wh s) (setValue_calls s) /\
  written_in_sync NET_METERED_ENERGY_RET_KEY
    (getHandle NET_METERED_ENERGY_RET_KEY)
    (net_metered_energy_ret_wh s) (setValue_calls s).
Proof.
  intros Hk s.
  destruct (run_sync getHandle st0 up1 up2 es Hk) as (_ & _ & S1 & S2).
  split; assumption.
Qed.

Lemma both_handles_by_key (x y : float) : handles_by_key (both_handles x y).
Proof.
  intros k h. unfold both_handles.
  destruct (String.eqb k NET_METERED_ENERGY_KEY);
    [intros [= <-]; reflexivity|].
  destruct (String.eqb k NET_METERED_ENERGY_RET_KEY);
    [intros [= <-]; reflexivity|discriminate].
Defined.

Lemma virtual_numbers_hold_accumulators_witness :
  let s :=
    run (hour_in_one_step ++ settled_reference_change)
      (start (both_handles 5 7) (totals 100 50) 0 0) in
  last_written NET_METERED_ENERGY_KEY (setValue_calls s) = Some 955%float /\
  written_in_sync NET_METERED_ENERGY_KEY
    (both_handles 5 7 NET_METERED_ENERGY_KEY)
    (net_metered_energy_wh s) (setValue_calls s).
Proof.
  split; [vm_compute; reflexivity|].
  exact (proj1 (virtual_numbers_hold_accumulators (both_handles 5 7)
                  (totals 100 50) 0 0
                  (hour_in_one_step ++ settled_reference_change)
                  (both_handles_by_key 5 7))).
Defined.

(** X17: without handles nothing is ever written: when [Virtual.getHandle]
    returns no handle for either virtual number, no run of the timers
    calls [setValue]. *)
Theorem no_handles_no_writes (getHandle : string -> option handle)
    (st0 : option emdata_status) (up1 up2 : float) (es : list tick) :
  getHandle NET_METERED_ENERGY_KEY = None ->
  getHandle NET_METERED_ENERGY_RET_KEY = None ->
  setValue_calls (run es (start getHandle st0 up1 up2)) = [].
Proof.
  intros G1 G2.
  destruct (start_frame getHandle st0 up1 up2) as (E1 & E2 & Es).
  cbv zeta in E1, E2, Es. rewrite G1 in E1. rewrite G2 in E2.
  revert E1 E2 Es. generalize (start getHandle st0 up1 up2).
  induction es as [|e es IH]; intros s E1 E2 Es; [exact Es|].
  simpl. destruct e as [now em|st u]; simpl.
  - unfold integrationTick.
    destruct (integratePower_frame now em s)
      as (F1 & F2 & _ & _ & _ & _ & _ & _ & _ & _ & _ & _ & _ & Fs).
    apply IH; congruence.
  - destruct (read_fails st) eqn:E.
    + rewrite (totalsTick_read_fails _ _ _ E). apply IH; assumption.
    + destruct (read_succeeds_inv st E)
        as (d & t & r & -> & Et & Er & Ft & Fr).
      rewrite (totalsTick_steps d t r u s Et Er Ft Fr).
      destruct (before_correction_frame (up_baseline_change u)
                  (up_baseline_correction u) (up_change u) t r s)
        as (F1 & F2 & _ & _ & Fs).
      cbv zeta in F1, F2, Fs.
      set (s2 := updateTotalsChangeDetection _ _ _ _) in *.
      assert (A : net_metered_energy_handle
                    (applyCorrectionIfReady (up_correction u) t r s2) = None
                  /\ net_metered_energy_ret_handle
                       (applyCorrectionIfReady (up_correction u) t r s2)
                     = None
                  /\ setValue_calls
                       (applyCorrectionIfReady (up_correction u) t r s2)
                     = []).
      { unfold applyCorrectionIfReady.
        destruct (negb _); [repeat split; congruence|].
        destruct (_ <? 5000); [repeat split; congruence|].
        cbv zeta. simpl. rewrite F1, F2, E1, E2, Fs, Es. repeat split. }
      destruct A as (A1 & A2 & A3). apply IH; assumption.
Qed.

Lemma no_handles_no_writes_witness :
  setValue_calls
    (run (hour_in_one_step ++ settled_reference_change)
       (start no_handles (totals 100 50) 0 0)) = [].
Proof.
  exact (no_handles_no_writes no_handles (totals 100 50) 0 0
           (hour_in_one_step ++ settled_reference_change) eq_refl eq_refl).
Defined.

(** X18: what was written survives a reboot: if after a run both virtual
    numbers have been written and at the next start they return the values
    written last, [loadPersisted] restores both accumulators, provided
    these are finite. *)
Theorem reboot_restores_accumulators
    (getHandle : string -> option handle) (st0 : option emdata_status)
    (up1 up2 : float) (es : list tick)
    (getHandle' : string -> option handle) (h1 h2 : handle)
    (v1 v2 : float) (s' : state) :
  handles_by_key getHandle ->
  let s := run es (start getHandle st0 up1 up2) in
  last_written NET_METERED_ENERGY_KEY (setValue_calls s) = Some v1 ->
  last_written NET_METERED_ENERGY_RET_KEY (setValue_calls s) = Some v2 ->
  getHandle' NET_METERED_ENERGY_KEY = Some h1 ->
  getStatus h1 = Some {| value := VNumber v1 |} ->
  getHandle' NET_METERED_ENERGY_RET_KEY = Some h2 ->
  getStatus h2 = Some {| value := VNumber v2 |} ->
  is_finite (net_metered_energy_wh s) = true ->
  is_finite (net_metered_energy_ret_wh s) = true ->
  net_metered_energy_wh (loadPersisted getHandle' s')
  = net_metered_energy_wh s /\
  net_metered_energy_ret_wh (loadPersisted getHandle' s')
  = net_metered_energy_ret_wh s.
Proof.
  intros Hk s W1 W2 G1 St1 G2 St2 F1 F2.
  destruct (run_sync getHandle st0 up1 up2 es Hk) as (_ & _ & S1 & S2).
  fold s in S1, S2. unfold written_in_sync in S1, S2.
  rewrite W1 in S1. rewrite W2 in S2.
  destruct S1 as [_ ->]. destruct S2 as [_ ->].
  unfold loadPersisted. rewrite G1, G2, St1, St2. simpl.
  rewrite F1, F2. split; reflexivity.
Qed.

Lemma reboot_restores_accumulators_witness :
  net_metered_energy_wh (loadPersisted (both_handles 955 7) initial_state)
  = net_metered_energy_wh
      (run (hour_in_one_step ++ settled_reference_change)
         (start (both_handles 5 7) (totals 100 50) 0 0)).
Proof.
  refine (proj1 (reboot_restores_accumulators (both_handles 5 7)
                   (totals 100 50) 0 0
                   (hour_in_one_step ++ settled_reference_change)
                   (both_handles 955 7)
                   {| handle_key := NET_METERED_ENERGY_KEY;
                      getStatus := Some {| value := VNumber 955 |} |}
                   {| handle_key := NET_METERED_ENERGY_RET_KEY;
                      getStatus := Some {| value := VNumber 7 |} |}
                   955 7 initial_state (both_handles_by_key 5 7)
                   _ _ eq_refl eq_refl eq_refl eq_refl _ _));
    vm_compute; reflexivity.
Defined.
